(** * cproxy: the Format-A / Format-B translator of [src/index.ts]

    A shallow embedding of the request handler of [src/index.ts]
    (schema sanitizer, request translator, non-streaming response
    translator and streaming re-encoder) together with the properties
    the specification states about them.

    Conventions of the embedding.
    - A JavaScript string is a [string]; one character stands for one
      UTF-16 code unit, so [String.length] is the JavaScript [.length].
    - A parsed JSON value is a [json]; an object is the list of its
      own enumerable entries in the order [for ... in] visits them, one
      entry per key (ordinary data keys).
    - [undefined] (an absent property) is [None].
    - Numbers that the code only stores and forwards are integers ([Z]).
    - What the handler reads of a parsed body is a record with the
      fields its types declare, each optional where the code tests it.
      A body that is [null], or that has no [choices] to index, is a
      case of its own ([ParsedResponse], [ParsedLine]): the handler
      throws a [TypeError] on it.
    - What the engine decides is a parameter: [JSON.parse],
      [JSON.stringify], [Math.random], the messages of the engine's
      errors, [parseInt] on a key written with an exponent, and
      whether [listen] resolves.
    - A thrown exception is a value of [exn]; the handler's [catch]
      turns it into the reply [500, {error: message}]. *)

From Stdlib Require Import List String Ascii ZArith Bool Lia Arith PeanoNat.
From Stdlib Require Import Numbers.DecimalString Sorting.Permutation.
Import ListNotations.
Open Scope string_scope.
Open Scope list_scope.

Set Warnings "-register-all".

(* ================================================================== *)
(** ** JavaScript string primitives used by the handler *)
(* ================================================================== *)

Module JsString.

(** [s.split(c)] for a one-character separator: never empty, one more
    piece than there are separators. *)
Fixpoint split (sep : ascii) (s : string) : list string :=
  match s with
  | EmptyString => [EmptyString]
  | String c rest =>
      if Ascii.eqb c sep then EmptyString :: split sep rest
      else match split sep rest with
           | piece :: pieces => String c piece :: pieces
           | [] => [String c EmptyString]
           end
  end.

(** White space of [String.prototype.trim] and of the regular
    expression class [\s], among the code units below 256. *)
Definition is_space (c : ascii) : bool :=
  let n := nat_of_ascii c in
  (((9 <=? n) && (n <=? 13)) || (n =? 32) || (n =? 160))%nat.

Fixpoint trimStart (s : string) : string :=
  match s with
  | EmptyString => EmptyString
  | String c rest => if is_space c then trimStart rest else s
  end.

Fixpoint trimEnd (s : string) : string :=
  match s with
  | EmptyString => EmptyString
  | String c rest =>
      match trimEnd rest with
      | EmptyString => if is_space c then EmptyString else String c EmptyString
      | kept => String c kept
      end
  end.

Definition trim (s : string) : string := trimEnd (trimStart s).

Definition startsWith (pre s : string) : bool := String.prefix pre s.

(** [s.substring(n)]: [s] without its first [n] code units. *)
Fixpoint substring_from (n : nat) (s : string) : string :=
  match n, s with
  | O, _ => s
  | S n', String _ rest => substring_from n' rest
  | S _, EmptyString => EmptyString
  end.

(** [s.replace(/^data:\s*/, '')]. *)
Definition strip_data_prefix (s : string) : string :=
  if startsWith "data:" s then trimStart (substring_from 5 s) else s.

(** [s.split(' ').length], the handler's token estimate for one string. *)
Definition split_count (s : string) : nat := List.length (split " "%char s).

(** The number of white-space separated words of a string (maximal
    runs of characters that are not white space): the estimate in the
    words of the specification. *)
Fixpoint words_from (inside : bool) (s : string) : nat :=
  match s with
  | EmptyString => 0
  | String c rest =>
      if is_space c then words_from false rest
      else (if inside then 0 else 1) + words_from true rest
  end.

Definition word_count (s : string) : nat := words_from false s.

(** [xs.join(sep)]. *)
Fixpoint join (sep : string) (xs : list string) : string :=
  match xs with
  | [] => EmptyString
  | [x] => x
  | x :: rest => x ++ sep ++ join sep rest
  end.

(** The double-quote character, and a quoted word. *)
Definition dquote : string := String (ascii_of_nat 34) EmptyString.
Definition newline : string := String (ascii_of_nat 10) EmptyString.

End JsString.
Import JsString.

(* ================================================================== *)
(** ** JSON values *)
(* ================================================================== *)

Module Json.

Inductive json : Type :=
| JNull
| JBool (b : bool)
| JNum (n : Z)
| JStr (s : string)
| JArr (xs : list json)
| JObj (kvs : list (string * json)).

(** [o[key]] on an object: the entry, or [undefined]. *)
Fixpoint obj_get (key : string) (kvs : list (string * json)) : option json :=
  match kvs with
  | [] => None
  | (k, v) :: rest => if String.eqb k key then Some v else obj_get key rest
  end.

(** [const { key, ...rest } = o]: the entries of [o] but [key]. *)
Definition remove_key (key : string) (kvs : list (string * json))
  : list (string * json) :=
  filter (fun kv => negb (String.eqb (fst kv) key)) kvs.

(** [typeof v === 'object'] on a JSON value: [null], arrays, objects. *)
Definition typeof_object (v : json) : bool :=
  match v with
  | JNull | JArr _ | JObj _ => true
  | _ => false
  end.

Definition isArray (v : json) : bool :=
  match v with JArr _ => true | _ => false end.

(** [v === s] for a string literal [s]. *)
Definition is_str (s : string) (v : option json) : bool :=
  match v with
  | Some (JStr t) => String.eqb t s
  | _ => false
  end.

(** The decimal name of an array index, as [for ... in] yields it. *)
Definition index_name (i : nat) : string :=
  NilEmpty.string_of_uint (Nat.to_uint i).

(** The entries [("0", x0); ("1", x1); ...] of an array. *)
Fixpoint index_entries (i : nat) (xs : list json) : list (string * json) :=
  match xs with
  | [] => []
  | x :: rest => (index_name i, x) :: index_entries (S i) rest
  end.

(** Structural equality, as a boolean. *)
Fixpoint json_eqb (a b : json) {struct a} : bool :=
  match a, b with
  | JNull, JNull => true
  | JBool x, JBool y => Bool.eqb x y
  | JNum x, JNum y => Z.eqb x y
  | JStr x, JStr y => String.eqb x y
  | JArr xs, JArr ys =>
      (fix go (l : list json) (r : list json) {struct l} : bool :=
         match l, r with
         | [], [] => true
         | x :: l', y :: r' => json_eqb x y && go l' r'
         | _, _ => false
         end) xs ys
  | JObj xs, JObj ys =>
      (fix go (l : list (string * json)) (r : list (string * json))
           {struct l} : bool :=
         match l, r with
         | [], [] => true
         | (k, x) :: l', (k', y) :: r' =>
             String.eqb k k' && json_eqb x y && go l' r'
         | _, _ => false
         end) xs ys
  | _, _ => false
  end.

(** Induction over nested values. *)
Section Induction.
Variable P : json -> Prop.
Hypothesis HNull : P JNull.
Hypothesis HBool : forall b, P (JBool b).
Hypothesis HNum : forall n, P (JNum n).
Hypothesis HStr : forall s, P (JStr s).
Hypothesis HArr : forall xs, Forall P xs -> P (JArr xs).
Hypothesis HObj :
  forall kvs, Forall (fun kv => P (snd kv)) kvs -> P (JObj kvs).

Fixpoint json_nested_ind (j : json) : P j :=
  match j with
  | JNull => HNull
  | JBool b => HBool b
  | JNum n => HNum n
  | JStr s => HStr s
  | JArr xs =>
      HArr xs ((fix go (l : list json) : Forall P l :=
               match l with
               | [] => Forall_nil _
               | x :: l' => Forall_cons x (json_nested_ind x) (go l')
               end) xs)
  | JObj kvs =>
      HObj kvs ((fix go (l : list (string * json))
               : Forall (fun kv => P (snd kv)) l :=
               match l with
               | [] => Forall_nil _
               | kv :: l' =>
                   Forall_cons kv (json_nested_ind (snd kv)) (go l')
               end) kvs)
  end.
End Induction.

End Json.
Import Json.

(* ================================================================== *)
(** ** SchemaSanitizer: [removeUriFormat] (index.ts 191-224) *)
(* ================================================================== *)

Module Sanitizer.

(** [schema.type === 'string' && schema.format === 'uri']. *)
Definition is_uri_string (kvs : list (string * json)) : bool :=
  is_str "string" (obj_get "type" kvs) && is_str "uri" (obj_get "format" kvs).

Definition combinator_key (key : string) : bool :=
  existsb (String.eqb key) ["anyOf"; "allOf"; "oneOf"].

Fixpoint removeUriFormat (schema : json) : json :=
  match schema with
  | JObj kvs =>
      if is_uri_string kvs then JObj (remove_key "format" kvs)
      else
        JObj (map (fun kv =>
          match kv with
          | (key, v) =>
            (key,
             if String.eqb key "properties" && typeof_object v then
               match v with
               | JObj ps =>
                   JObj (map (fun pkv =>
                           match pkv with
                           | (propKey, pv) => (propKey, removeUriFormat pv)
                           end) ps)
               | JArr xs => JObj (index_entries 0 (map removeUriFormat xs))
               | _ => JObj []
               end
             else if String.eqb key "items" && typeof_object v then
               removeUriFormat v
             else if String.eqb key "additionalProperties" && typeof_object v
             then removeUriFormat v
             else if combinator_key key && isArray v then
               match v with
               | JArr xs => JArr (map removeUriFormat xs)
               | _ => v
               end
             else removeUriFormat v)
          end) kvs)
  | JArr xs => JArr (map removeUriFormat xs)
  | _ => schema
  end.

(** The value stored under [key] by the [for ... in] loop. *)
Definition entry_value (key : string) (v : json) : json :=
  if String.eqb key "properties" && typeof_object v then
    match v with
    | JObj ps => JObj (map (fun pkv => (fst pkv, removeUriFormat (snd pkv))) ps)
    | JArr xs => JObj (index_entries 0 (map removeUriFormat xs))
    | _ => JObj []
    end
  else removeUriFormat v.

(** [settled x]: wherever the traversal of [x] meets an object with
    [type: "string"] and [format: "uri"], what is left of that object
    once [format] is dropped is a value the sanitizer does not change
    (as for a string schema without nested schemas). *)
Fixpoint settled (x : json) : bool :=
  match x with
  | JObj kvs =>
      if is_uri_string kvs then
        json_eqb (removeUriFormat (JObj (remove_key "format" kvs)))
                 (JObj (remove_key "format" kvs))
      else
        forallb (fun kv =>
          match kv with
          | (key, v) =>
              if String.eqb key "properties" then
                match v with
                | JObj ps =>
                    forallb (fun pkv =>
                               match pkv with (_, pv) => settled pv end) ps
                | JArr xs => forallb settled xs
                | _ => true
                end
              else settled v
          end) kvs
  | JArr xs => forallb settled xs
  | _ => true
  end.

(** [scalar_leaves x]: wherever the traversal of [x] meets an object
    with [type: "string"] and [format: "uri"], that object holds
    strings, numbers and booleans only. *)
Definition is_scalar (v : json) : bool :=
  match v with
  | JBool _ | JNum _ | JStr _ => true
  | _ => false
  end.

Fixpoint scalar_leaves (x : json) : bool :=
  match x with
  | JObj kvs =>
      if is_uri_string kvs then
        forallb (fun kv => match kv with (_, v) => is_scalar v end) kvs
      else
        forallb (fun kv =>
          match kv with
          | (key, v) =>
              if String.eqb key "properties" then
                match v with
                | JObj ps =>
                    forallb (fun pkv =>
                               match pkv with (_, pv) => scalar_leaves pv end)
                            ps
                | JArr xs => forallb scalar_leaves xs
                | _ => true
                end
              else scalar_leaves v
          end) kvs
  | JArr xs => forallb scalar_leaves xs
  | _ => true
  end.

(** [uri_free x]: the traversal of [x] meets no object with
    [type: "string"] and [format: "uri"]. *)
Fixpoint uri_free (x : json) : bool :=
  match x with
  | JObj kvs =>
      negb (is_uri_string kvs)
      && forallb (fun kv =>
           match kv with
           | (key, v) =>
               if String.eqb key "properties" then
                 match v with
                 | JObj ps =>
                     forallb (fun pkv =>
                                match pkv with (_, pv) => uri_free pv end) ps
                 | JArr xs => forallb uri_free xs
                 | _ => true
                 end
               else uri_free v
           end) kvs
  | JArr xs => forallb uri_free xs
  | _ => true
  end.

End Sanitizer.

(* ================================================================== *)
(** ** The two wire formats (the shapes [index.ts] reads and builds) *)
(* ================================================================== *)

Module Wire.

(** JavaScript truthiness of a JSON value and of an optional string. *)
Definition truthy (v : json) : bool :=
  match v with
  | JNull => false
  | JBool b => b
  | JNum n => negb (Z.eqb n 0)
  | JStr s => negb (String.eqb s EmptyString)
  | JArr _ | JObj _ => true
  end.

Definition truthy_str (s : option string) : bool :=
  match s with
  | Some t => negb (String.eqb t EmptyString)
  | None => false
  end.

(** [a || b] on optional strings. *)
Definition or_str (a b : option string) : option string :=
  if truthy_str a then a else b.

(** [a || ''] on an optional string. *)
Definition or_empty (a : option string) : string :=
  match or_str a (Some EmptyString) with
  | Some s => s
  | None => EmptyString
  end.

(** *** Format A (inbound) *)

(** One item of a content array, read through the fields the handler
    touches; an absent field is [None]. *)
Record AnthropicContent := {
  ac_type : option string;
  ac_text : option string;
  ac_content : option string;
  ac_id : option string;
  ac_name : option string;
  ac_input : option json;
  ac_tool_use_id : option string
}.

Inductive MessageContent :=
| content_string (s : string)
| content_array (items : list AnthropicContent).

Record AnthropicMessage := {
  am_role : string;
  am_content : MessageContent
}.

Record AnthropicTool := {
  at_name : string;
  at_description : option string;
  at_input_schema : option json
}.

Inductive SystemField :=
| system_string (s : string)
| system_array (entries : list AnthropicContent).

Record AnthropicRequest := {
  ar_system : option SystemField;
  ar_messages : option (list AnthropicMessage);
  ar_tools : option (list AnthropicTool);
  ar_max_tokens : option json;
  ar_temperature : option json;
  ar_stream : option json;
  ar_thinking : option json
}.

(** *** Format B (backend) *)

Record InnerFunction := {
  if_name : option string;
  if_parameters : option json
}.

Record FunctionCall := {
  fn_type : option string;
  fn_id : option string;
  fn_function : option InnerFunction;
  fn_name : option string;
  fn_arguments : option string
}.

Record OpenAIToolCall := {
  tc_index : option Z;
  tc_id : option string;
  tc_function : FunctionCall
}.

Record OpenAIMessage := {
  om_role : string;
  om_content : option string;
  om_tool_calls : option (list OpenAIToolCall);
  om_tool_call_id : option string
}.

Record OpenAIFunctionDef := {
  fd_name : string;
  fd_description : option string;
  fd_parameters : option json
}.

Record OpenAITool := {
  ot_type : string;
  ot_function : OpenAIFunctionDef
}.

Record OpenAIRequest := {
  oq_model : string;
  oq_messages : list OpenAIMessage;
  oq_max_tokens : option json;
  oq_temperature : json;
  oq_stream : bool;
  oq_tools : option (list OpenAITool)
}.

Record Usage := {
  prompt_tokens : Z;
  completion_tokens : Z
}.

Record ErrorField := { error_message : string }.

(** A complete (non-streaming) backend response. *)
Record OpenAIChoice := {
  oc_message : OpenAIMessage;
  oc_finish_reason : option string
}.

Record OpenAIResponse := {
  or_id : option string;
  or_error : option ErrorField;
  or_choices : list OpenAIChoice;
  or_usage : option Usage
}.

(** One parsed [data:] line of a streamed backend response. *)
Record StreamDelta := {
  sd_tool_calls : option (list OpenAIToolCall);
  sd_content : option string;
  sd_reasoning : option string
}.

Record StreamChoice := { sc_delta : option StreamDelta }.

Record StreamFrame := {
  sf_error : option ErrorField;
  sf_usage : option Usage;
  sf_choices : list StreamChoice
}.

(** *** Format A (outbound) *)

Inductive AnthropicStopReason := tool_use | end_turn | max_tokens.

Inductive ResponseBlock :=
| response_text (text : string)
| response_tool_use (id : option string) (name : option string) (input : json).

Record AnthropicUsage := {
  input_tokens : Z;
  output_tokens : Z
}.

Record AnthropicResponse := {
  rs_content : list ResponseBlock;
  rs_id : string;
  rs_model : string;
  rs_role : string;
  rs_stop_reason : AnthropicStopReason;
  rs_type : string;
  rs_usage : AnthropicUsage
}.

(** The events of the outbound stream. *)
Inductive StartBlock :=
| start_tool_use (id : option string) (name : option string)
| start_text.

Inductive BlockDelta :=
| input_json_delta (partial_json : string)
| text_delta (text : string)
| thinking_delta (thinking : string).

Inductive SSEEvent :=
| message_start (id : string) (model : string)
| ping
| content_block_start (index : Z) (content_block : StartBlock)
| content_block_delta (index : Z) (delta : BlockDelta)
| content_block_stop (index : Z)
| message_delta (stop_reason : AnthropicStopReason) (out_tokens : Z)
| message_stop.

(** What the handler does to [reply.raw], in order. *)
Inductive RawAction :=
| writeHead (status : Z)
| sendSSE (e : SSEEvent)
| raw_end.

(** What the handler returns to the server: the status set with
    [reply.code] (200 when never set) and the returned value. *)
Inductive Payload :=
| payload_json (j : json)
| payload_message (r : AnthropicResponse)
| payload_void.

Record Reply := {
  reply_code : Z;
  reply_payload : Payload
}.

(** [{ error: text }]. *)
Definition error_object (text : string) : json :=
  JObj [("error", JStr text)].

Record ProxyConfig := {
  models_reasoning : string;
  models_completion : string
}.

End Wire.
Import Wire.

(** The two values whose properties cannot be read. *)
Inductive Nullish :=
| js_undefined
| js_null.

(** A thrown exception: [new Error(message)], the [SyntaxError] of
    [JSON.parse] on the text it was given ([None]: [undefined]), or the
    [TypeError] of reading [property] of [undefined] or [null]. *)
Inductive exn :=
| Error (message : string)
| SyntaxError (source : option string)
| TypeError (target : Nullish) (property : string).

(* ================================================================== *)
(** ** RequestTranslator (index.ts 163-186, 230-306) *)
(* ================================================================== *)

Module Request.

(** [item.type === name]. *)
Definition has_type (name : string) (item : AnthropicContent) : bool :=
  match ac_type item with
  | Some t => String.eqb t name
  | None => false
  end.

Definition normalizeContent (content : MessageContent) : option string :=
  match content with
  | content_string s => Some s
  | content_array items =>
      let texts :=
        map (fun item => or_empty (or_str (ac_text item) (ac_content item)))
            items in
      let joined :=
        join " " (filter (fun t => negb (String.eqb t EmptyString)) texts) in
      if String.eqb joined EmptyString then None else Some joined
  end.

Section Translate.
Variable EXCLUDED_TOOLS : list string.
Variable config : ProxyConfig.
Variable JSON_stringify : json -> string.

(** [payload.system.forEach(...)]: the system messages pushed. *)
Definition system_messages (payload : AnthropicRequest)
  : list OpenAIMessage :=
  match ar_system payload with
  | Some (system_array entries) =>
      flat_map (fun sysMsg =>
        let normalized :=
          normalizeContent
            (content_string
               (or_empty (or_str (ac_text sysMsg) (ac_content sysMsg)))) in
        if truthy_str normalized then
          [ {| om_role := "system"; om_content := normalized;
               om_tool_calls := None; om_tool_call_id := None |} ]
        else []) entries
  | _ => []
  end.

Definition tool_call_of (toolCall : AnthropicContent) : OpenAIToolCall :=
  {| tc_index := None;
     tc_id := ac_id toolCall;
     tc_function :=
       {| fn_type := Some "function";
          fn_id := ac_id toolCall;
          fn_function :=
            Some {| if_name := ac_name toolCall;
                    if_parameters := ac_input toolCall |};
          fn_name := ac_name toolCall;
          fn_arguments := option_map JSON_stringify (ac_input toolCall) |}
  |}.

Definition tool_message (toolResult : AnthropicContent) : OpenAIMessage :=
  {| om_role := "tool";
     om_content := or_str (ac_text toolResult) (ac_content toolResult);
     om_tool_calls := None;
     om_tool_call_id := ac_tool_use_id toolResult |}.

(** The body of [payload.messages.forEach]: what one inbound message
    pushes onto [messages]. *)
Definition translate_message (msg : AnthropicMessage) : list OpenAIMessage :=
  let items :=
    match am_content msg with
    | content_array items => items
    | content_string _ => []
    end in
  let toolCalls := map tool_call_of (filter (has_type "tool_use") items) in
  let normalized :=
    normalizeContent
      (content_string
         (match am_content msg with
          | content_string s => s
          | content_array _ => EmptyString
          end)) in
  let content := if truthy_str normalized then normalized else None in
  let tool_calls :=
    if (0 <? List.length toolCalls)%nat then Some toolCalls else None in
  let newMsg :=
    {| om_role := am_role msg; om_content := content;
       om_tool_calls := tool_calls; om_tool_call_id := None |} in
  (if truthy_str content
      || match tool_calls with Some _ => true | None => false end
   then [newMsg] else [])
  ++ map tool_message (filter (has_type "tool_result") items).

Definition translate_messages (payload : AnthropicRequest)
  : list OpenAIMessage :=
  system_messages payload
  ++ match ar_messages payload with
     | Some msgs => flat_map translate_message msgs
     | None => []
     end.

Definition translate_tools (payload : AnthropicRequest) : list OpenAITool :=
  map (fun tool =>
         {| ot_type := "function";
            ot_function :=
              {| fd_name := at_name tool;
                 fd_description := at_description tool;
                 fd_parameters :=
                   option_map Sanitizer.removeUriFormat
                              (at_input_schema tool) |} |})
      (filter (fun tool =>
                 negb (existsb (String.eqb (at_name tool)) EXCLUDED_TOOLS))
              (match ar_tools payload with Some ts => ts | None => [] end)).

Definition is_truthy (v : option json) : bool :=
  match v with Some j => truthy j | None => false end.

Definition openaiPayload (payload : AnthropicRequest) : OpenAIRequest :=
  let tools := translate_tools payload in
  {| oq_model := if is_truthy (ar_thinking payload)
                 then models_reasoning config
                 else models_completion config;
     oq_messages := translate_messages payload;
     oq_max_tokens := if is_truthy (ar_max_tokens payload)
                      then ar_max_tokens payload else None;
     oq_temperature := match ar_temperature payload with
                       | Some t => t
                       | None => JNum 1
                       end;
     oq_stream := match ar_stream payload with
                  | Some (JBool true) => true
                  | _ => false
                  end;
     oq_tools := if (0 <? List.length tools)%nat then Some tools else None |}.
End Translate.

End Request.

(* ================================================================== *)
(** ** NonStreamResponseTranslator (index.ts 163-170, 330-383) *)
(* ================================================================== *)

Module NonStream.

Definition mapStopReason (finishReason : option string) : AnthropicStopReason :=
  match finishReason with
  | Some reason =>
      if String.eqb reason "tool_calls" then tool_use
      else if String.eqb reason "stop" then end_turn
      else if String.eqb reason "length" then max_tokens
      else end_turn
  | None => end_turn
  end.

(** [s.replace(pat, rep)] with a string pattern: the first occurrence. *)
Fixpoint replace_first (pat rep s : string) : string :=
  if String.prefix pat s then rep ++ substring_from (String.length pat) s
  else match s with
       | EmptyString => EmptyString
       | String c rest => String c (replace_first pat rep rest)
       end.

(** [content?.split(' ').length || 0]. *)
Definition estimate (content : option string) : nat :=
  match content with
  | Some text => split_count text
  | None => 0
  end.

(** [messages.reduce((acc, msg) => acc + (...), 0)]. *)
Definition estimate_messages (messages : list OpenAIMessage) : nat :=
  fold_left (fun acc msg => (acc + estimate (om_content msg))%nat) messages 0%nat.

(** What [JSON.parse] gives for the body of a complete response, as
    far as the handler reads it: [null]; a value whose [choices] is
    [undefined] or [null], with its [error]; or a response with a
    [choices] array. *)
Inductive ParsedResponse :=
| body_null
| body_plain (error : option ErrorField) (choices : Nullish)
| body_data (data : OpenAIResponse).

Section Translate.
Variable JSON_parse : string -> option json.
(** ['msg_' + Math.random().toString(36).substring(2, 26)]. *)
Variable random_id : string.

(** [toolCalls.map(...)]: the first argument text that does not parse
    throws. *)
Fixpoint tool_use_blocks (toolCalls : list OpenAIToolCall)
  : exn + list ResponseBlock :=
  match toolCalls with
  | [] => inr []
  | toolCall :: rest =>
      let text := fn_arguments (tc_function toolCall) in
      match match text with Some t => JSON_parse t | None => None end with
      | None => inl (SyntaxError text)
      | Some input =>
          match tool_use_blocks rest with
          | inl e => inl e
          | inr blocks =>
              inr (response_tool_use (tc_id toolCall)
                     (fn_name (tc_function toolCall)) input :: blocks)
          end
      end
  end.

Definition usage_of (data : OpenAIResponse) (messages : list OpenAIMessage)
           (openaiMessage : OpenAIMessage) : AnthropicUsage :=
  {| input_tokens :=
       match or_usage data with
       | Some u => prompt_tokens u
       | None => Z.of_nat (estimate_messages messages)
       end;
     output_tokens :=
       match or_usage data with
       | Some u => completion_tokens u
       | None => Z.of_nat (estimate (om_content openaiMessage))
       end |}.

(** The non-streaming branch, from the parsed body [data] on, for a
    body of the shape [OpenAIResponse] declares: a [choices] array
    whose first element, if any, has a [message], tool calls with a
    [function] object, an [id] that is a string if it is there. *)
Definition translate (model : string) (messages : list OpenAIMessage)
           (data : OpenAIResponse) : exn + AnthropicResponse :=
  match or_error data with
  | Some err => inl (Error (error_message err))
  | None =>
      match or_choices data with
      | [] => inl (Error "No choices in OpenAI response")
      | choice :: _ =>
          let openaiMessage := oc_message choice in
          let stopReason := mapStopReason (oc_finish_reason choice) in
          let toolCalls :=
            match om_tool_calls openaiMessage with
            | Some calls => calls
            | None => []
            end in
          let messageId :=
            if truthy_str (or_id data)
            then replace_first "chatcmpl" "msg" (or_empty (or_id data))
            else random_id in
          match tool_use_blocks toolCalls with
          | inl e => inl e
          | inr blocks =>
              inr {| rs_content :=
                       response_text (or_empty (om_content openaiMessage))
                       :: blocks;
                     rs_id := messageId;
                     rs_model := model;
                     rs_role := "assistant";
                     rs_stop_reason := stopReason;
                     rs_type := "message";
                     rs_usage := usage_of data messages openaiMessage |}
          end
      end
  end.

(** The non-streaming branch from what [openaiResponse.json()] gave:
    reading [data.error] of [null] throws, and so does reading
    [data.choices[0]] when there is no [choices]. *)
Definition respond (model : string) (messages : list OpenAIMessage)
           (parsed : ParsedResponse) : exn + AnthropicResponse :=
  match parsed with
  | body_null => inl (TypeError js_null "error")
  | body_plain (Some err) _ => inl (Error (error_message err))
  | body_plain None choices => inl (TypeError choices "0")
  | body_data data => translate model messages data
  end.
End Translate.

End NonStream.

(* ================================================================== *)
(** ** StreamingReencoder (index.ts 385-588) *)
(* ================================================================== *)

Module Streaming.

(** [toolCallAccumulators]: an object used as a map from block index to
    the longest argument text seen, kept as its entries in insertion
    order, one per key. *)
Fixpoint acc_get (idx : Z) (acc : list (Z * string)) : option string :=
  match acc with
  | [] => None
  | (k, v) :: rest => if Z.eqb k idx then Some v else acc_get idx rest
  end.

Fixpoint acc_set (idx : Z) (v : string) (acc : list (Z * string))
  : list (Z * string) :=
  match acc with
  | [] => [(idx, v)]
  | (k, old) :: rest =>
      if Z.eqb k idx then (k, v) :: rest else (k, old) :: acc_set idx v rest
  end.

(** The order in which [for (const idx in toolCallAccumulators)] visits
    the keys: array indices (0 .. 2^32 - 2) ascending, then every other
    key in insertion order.  A key is kept here as the number it was
    made from. *)
Definition is_array_index (k : Z) : bool :=
  (Z.leb 0 k && Z.ltb k 4294967295)%Z.

Fixpoint insert_sorted (k : Z) (sorted : list Z) : list Z :=
  match sorted with
  | [] => [k]
  | x :: rest =>
      if Z.leb k x then k :: sorted else x :: insert_sorted k rest
  end.

Definition sort_ascending (ks : list Z) : list Z :=
  fold_right insert_sorted [] ks.

Definition for_in_keys (acc : list (Z * string)) : list Z :=
  let keys := map fst acc in
  sort_ascending (filter is_array_index keys)
  ++ filter (fun k => negb (is_array_index k)) keys.

Record StreamingState := {
  accumulatedContent : string;
  accumulatedReasoning : string;
  usage : option Usage;
  textBlockStarted : bool;
  encounteredToolCall : bool;
  toolCallAccumulators : list (Z * string);
  messageId : string
}.

(** The mutable variables of one streaming request together with what
    has been written to [reply.raw] so far. *)
Record Conn := {
  isSucceeded : bool;
  streamingState : StreamingState;
  raw : list RawAction
}.

Definition emit (c : Conn) (actions : list RawAction) : Conn :=
  {| isSucceeded := isSucceeded c;
     streamingState := streamingState c;
     raw := raw c ++ actions |}.

Definition update (c : Conn) (st : StreamingState) : Conn :=
  {| isSucceeded := isSucceeded c; streamingState := st; raw := raw c |}.

(** Assignments to one field of [streamingState]. *)
Definition set_accumulatedContent (v : string) (st : StreamingState)
  : StreamingState :=
  {| accumulatedContent := v;
     accumulatedReasoning := accumulatedReasoning st;
     usage := usage st;
     textBlockStarted := textBlockStarted st;
     encounteredToolCall := encounteredToolCall st;
     toolCallAccumulators := toolCallAccumulators st;
     messageId := messageId st |}.

Definition set_accumulatedReasoning (v : string) (st : StreamingState)
  : StreamingState :=
  {| accumulatedContent := accumulatedContent st;
     accumulatedReasoning := v;
     usage := usage st;
     textBlockStarted := textBlockStarted st;
     encounteredToolCall := encounteredToolCall st;
     toolCallAccumulators := toolCallAccumulators st;
     messageId := messageId st |}.

Definition set_usage (v : option Usage) (st : StreamingState)
  : StreamingState :=
  {| accumulatedContent := accumulatedContent st;
     accumulatedReasoning := accumulatedReasoning st;
     usage := v;
     textBlockStarted := textBlockStarted st;
     encounteredToolCall := encounteredToolCall st;
     toolCallAccumulators := toolCallAccumulators st;
     messageId := messageId st |}.

Definition set_textBlockStarted (v : bool) (st : StreamingState)
  : StreamingState :=
  {| accumulatedContent := accumulatedContent st;
     accumulatedReasoning := accumulatedReasoning st;
     usage := usage st;
     textBlockStarted := v;
     encounteredToolCall := encounteredToolCall st;
     toolCallAccumulators := toolCallAccumulators st;
     messageId := messageId st |}.

Definition set_encounteredToolCall (v : bool) (st : StreamingState)
  : StreamingState :=
  {| accumulatedContent := accumulatedContent st;
     accumulatedReasoning := accumulatedReasoning st;
     usage := usage st;
     textBlockStarted := textBlockStarted st;
     encounteredToolCall := v;
     toolCallAccumulators := toolCallAccumulators st;
     messageId := messageId st |}.

Definition set_toolCallAccumulators (v : list (Z * string))
           (st : StreamingState) : StreamingState :=
  {| accumulatedContent := accumulatedContent st;
     accumulatedReasoning := accumulatedReasoning st;
     usage := usage st;
     textBlockStarted := textBlockStarted st;
     encounteredToolCall := encounteredToolCall st;
     toolCallAccumulators := v;
     messageId := messageId st |}.

(** How the [for] loop over the lines of a chunk leaves: falls through
    to the next read, returns from the handler, or throws. *)
Inductive Exit :=
| Continue (c : Conn)
| Return (c : Conn)
| Throw (c : Conn) (e : exn).

(** What [JSON.parse] gives for a data line, as far as the handler
    reads it: [null]; a value whose [choices] is [undefined] or [null]
    (an object without that key, but also a number, a string, a boolean
    or an array), with its [error] and [usage]; or a frame, whose
    [choices] can be indexed. *)
Inductive ParsedLine :=
| parsed_null
| parsed_plain (error : option ErrorField) (usage : option Usage)
               (choices : Nullish)
| parsed_frame (frame : StreamFrame).

Section Reencoder.
(** [parseInt(idx, 10)] on the key of a number of magnitude 10^21 or
    more: such a key is written with an exponent ([1e+21]), and
    [parseInt] stops at its first character that is no digit. *)
Variable parseInt_exponent : Z -> Z.
(** [openaiPayload.model]. *)
Variable model : string.
(** The two ['msg_' + Math.random()...] values of one request. *)
Variable startId : string.
Variable stateId : string.
(** [JSON.parse] of a data line; [None]: it throws. *)
Variable JSON_parse : string -> option ParsedLine.

Definition initialState : StreamingState :=
  {| accumulatedContent := EmptyString;
     accumulatedReasoning := EmptyString;
     usage := None;
     textBlockStarted := false;
     encounteredToolCall := false;
     toolCallAccumulators := [];
     messageId := stateId |}.

Definition initialConn : Conn :=
  {| isSucceeded := false; streamingState := initialState; raw := [] |}.

Definition sendSuccessMessage (c : Conn) : Conn :=
  if isSucceeded c then c
  else
    {| isSucceeded := true;
       streamingState := streamingState c;
       raw := raw c ++ [writeHead 200;
                        sendSSE (message_start startId model);
                        sendSSE ping] |}.

(** [toolCall.index || 0]. *)
Definition block_index (toolCall : OpenAIToolCall) : Z :=
  match tc_index toolCall with
  | Some i => if Z.eqb i 0 then 0%Z else i
  | None => 0%Z
  end.

(** The body of [for (const toolCall of delta.tool_calls)]. *)
Definition on_tool_call (c : Conn) (toolCall : OpenAIToolCall) : Conn :=
  let c1 := update c (set_encounteredToolCall true (streamingState c)) in
  let idx := block_index toolCall in
  let c2 :=
    match acc_get idx (toolCallAccumulators (streamingState c1)) with
    | None =>
        emit (update c1
                (set_toolCallAccumulators
                   (acc_set idx EmptyString
                      (toolCallAccumulators (streamingState c1)))
                   (streamingState c1)))
             [sendSSE (content_block_start idx
                         (start_tool_use (tc_id toolCall)
                            (fn_name (tc_function toolCall))))]
    | Some _ => c1
    end in
  let newArgs := or_empty (fn_arguments (tc_function toolCall)) in
  let oldArgs :=
    match acc_get idx (toolCallAccumulators (streamingState c2)) with
    | Some old => old
    | None => EmptyString
    end in
  if (String.length oldArgs <? String.length newArgs)%nat then
    let deltaText := substring_from (String.length oldArgs) newArgs in
    update
      (emit c2 [sendSSE (content_block_delta idx (input_json_delta deltaText))])
      (set_toolCallAccumulators
         (acc_set idx newArgs (toolCallAccumulators (streamingState c2)))
         (streamingState c2))
  else c2.

(** Opening the single text block (index 0) when it is not open. *)
Definition open_text_block (c : Conn) : Conn :=
  if textBlockStarted (streamingState c) then c
  else
    emit (update c (set_textBlockStarted true (streamingState c)))
         [sendSSE (content_block_start 0 start_text)].

Definition on_content (c : Conn) (text : string) : Conn :=
  let c1 := open_text_block c in
  let st := streamingState c1 in
  emit (update c1 (set_accumulatedContent (accumulatedContent st ++ text) st))
       [sendSSE (content_block_delta 0 (text_delta text))].

Definition on_reasoning (c : Conn) (text : string) : Conn :=
  let c1 := open_text_block c in
  let st := streamingState c1 in
  emit (update c1
          (set_accumulatedReasoning (accumulatedReasoning st ++ text) st))
       [sendSSE (content_block_delta 0 (thinking_delta text))].

(** [if (parsed.usage) streamingState.usage = parsed.usage]. *)
Definition capture_usage (c : Conn) (parsed : StreamFrame) : Conn :=
  match sf_usage parsed with
  | Some u => update c (set_usage (Some u) (streamingState c))
  | None => c
  end.

(** [parsed.choices[0]?.delta] and the three branches on it. *)
Definition on_delta (c : Conn) (parsed : StreamFrame) : Conn :=
  let delta :=
    match sf_choices parsed with
    | choice :: _ => sc_delta choice
    | [] => None
    end in
  match delta with
  | None => c
  | Some d =>
      match sd_tool_calls d with
      | Some toolCalls => fold_left on_tool_call toolCalls c
      | None =>
          if truthy_str (sd_content d) then on_content c (or_empty (sd_content d))
          else if truthy_str (sd_reasoning d)
          then on_reasoning c (or_empty (sd_reasoning d))
          else c
      end
  end.

(** A parsed frame without an error field (lines 497-583). *)
Definition on_frame (c : Conn) (parsed : StreamFrame) : Conn :=
  on_delta (capture_usage (sendSuccessMessage c) parsed) parsed.

(** [parseInt(idx, 10)] for a key [idx] of [toolCallAccumulators]: the
    key of a number below 10^21 in magnitude is its decimal text, which
    [parseInt] reads back. *)
Definition key_index (idx : Z) : Z :=
  if (Z.abs idx <? 1000000000000000000000)%Z then idx
  else parseInt_exponent idx.

(** The [[DONE]] branch (lines 457-490). *)
Definition finalize (c : Conn) : Conn :=
  let st := streamingState c in
  let stops :=
    if encounteredToolCall st then
      map (fun idx => sendSSE (content_block_stop (key_index idx)))
          (for_in_keys (toolCallAccumulators st))
    else if textBlockStarted st then [sendSSE (content_block_stop 0)]
    else [] in
  let out :=
    match usage st with
    | Some u => completion_tokens u
    | None =>
        Z.of_nat (split_count (accumulatedContent st)
                  + split_count (accumulatedReasoning st))
    end in
  emit c (stops
          ++ [sendSSE (message_delta
                         (if encounteredToolCall st then tool_use else end_turn)
                         out);
              sendSSE message_stop;
              raw_end]).

(** A parsed value without [choices] and without an error field:
    [sendSuccessMessage()] and the usage capture run, then reading
    [parsed.choices[0]] throws (lines 497-504). *)
Definition on_plain (c : Conn) (u : option Usage) (choices : Nullish) : Exit :=
  Throw (capture_usage (sendSuccessMessage c)
           {| sf_error := None; sf_usage := u; sf_choices := [] |})
        (TypeError choices "0").

(** One line of a chunk that passed the [data:] filter. *)
Definition on_data (c : Conn) (dataStr : string) : Exit :=
  if String.eqb dataStr "[DONE]" then Return (finalize c)
  else
    match JSON_parse dataStr with
    | None => Throw c (SyntaxError (Some dataStr))
    | Some parsed_null => Throw c (TypeError js_null "error")
    | Some (parsed_plain (Some err) _ _) =>
        Throw c (Error (error_message err))
    | Some (parsed_plain None u choices) => on_plain c u choices
    | Some (parsed_frame parsed) =>
        match sf_error parsed with
        | Some err => Throw c (Error (error_message err))
        | None => Continue (on_frame c parsed)
        end
    end.

(** [for (const line of lines)]. *)
Fixpoint for_lines (c : Conn) (lines : list string) : Exit :=
  match lines with
  | [] => Continue c
  | line :: rest =>
      let trimmed := trim line in
      if String.eqb trimmed EmptyString || negb (startsWith "data:" trimmed)
      then for_lines c rest
      else
        match on_data c (strip_data_prefix trimmed) with
        | Continue c' => for_lines c' rest
        | exit => exit
        end
  end.

(** [while (!done)]: the decoded chunks the reader yields, then
    [done]. *)
Fixpoint read_loop (c : Conn) (chunks : list string) : Exit :=
  match chunks with
  | [] => Continue c
  | chunk :: rest =>
      match for_lines c (split (ascii_of_nat 10) chunk) with
      | Continue c' => read_loop c' rest
      | exit => exit
      end
  end.
End Reencoder.

End Streaming.

(* ================================================================== *)
(** ** ProxyOrchestrator: the [/v1/messages] handler (index.ts 228-595) *)
(* ================================================================== *)

Module Proxy.

(** What [fetch] resolved to: the status and the body, as the decoded
    chunks its reader yields ([None]: no body). *)
Record FetchResponse := {
  status : Z;
  body : option (list string)
}.

(** [openaiResponse.ok]. *)
Definition ok (resp : FetchResponse) : bool :=
  (Z.leb 200 (status resp) && Z.leb (status resp) 299)%Z.

(** [await openaiResponse.text()]. *)
Definition text (resp : FetchResponse) : string :=
  match body resp with
  | Some chunks => String.concat EmptyString chunks
  | None => EmptyString
  end.

Section Handler.
Variable EXCLUDED_TOOLS : list string.
Variable config : ProxyConfig.
Variable JSON_stringify : json -> string.
(** [JSON.parse] read as a complete response, as a JSON value, as a
    line of the stream. *)
Variable parse_response : string -> option NonStream.ParsedResponse.
Variable parse_value : string -> option json.
Variable parse_frame : string -> option Streaming.ParsedLine.
(** [parseInt] on a key written with an exponent. *)
Variable parseInt_exponent : Z -> Z.
(** The messages the engine gives a [SyntaxError] and a [TypeError]. *)
Variable syntax_message : option string -> string.
Variable type_message : Nullish -> string -> string.
(** The values of ['msg_' + Math.random()...]: [random_id 0] is the id
    sent to the client, [random_id 1] is [streamingState.messageId]. *)
Variable random_id : nat -> string.

Definition exn_message (e : exn) : string :=
  match e with
  | Error m => m
  | SyntaxError src => syntax_message src
  | TypeError target property => type_message target property
  end.

(** The [catch] clause. *)
Definition on_throw (e : exn) : Reply :=
  {| reply_code := 500;
     reply_payload := payload_json (error_object (exn_message e)) |}.

(** The backend answered with a status outside 200-299 (323-327). *)
Definition backend_failure (resp : FetchResponse) : Reply :=
  {| reply_code := status resp;
     reply_payload := payload_json (error_object (text resp)) |}.

(** The streaming branch (386-588). *)
Definition stream (model : string) (resp : FetchResponse)
  : list RawAction * Reply :=
  match body resp with
  | None => ([], on_throw (Error "Failed to get response reader"))
  | Some chunks =>
      match Streaming.read_loop parseInt_exponent model (random_id 0)
              parse_frame (Streaming.initialConn (random_id 1)) chunks with
      | Streaming.Continue c =>
          (Streaming.raw c ++ [raw_end],
           {| reply_code := 200; reply_payload := payload_void |})
      | Streaming.Return c =>
          (Streaming.raw c,
           {| reply_code := 200; reply_payload := payload_void |})
      | Streaming.Throw c e => (Streaming.raw c, on_throw e)
      end
  end.

(** The handler from the resolved [fetch] on: what it writes to
    [reply.raw] and what it returns. *)
Definition handler (payload : AnthropicRequest) (resp : FetchResponse)
  : list RawAction * Reply :=
  let openaiPayload :=
    Request.openaiPayload EXCLUDED_TOOLS config JSON_stringify payload in
  if negb (ok resp) then ([], backend_failure resp)
  else if negb (oq_stream openaiPayload) then
    match parse_response (text resp) with
    | None => ([], on_throw (SyntaxError (Some (text resp))))
    | Some data =>
        match NonStream.respond parse_value (random_id 0)
                (oq_model openaiPayload) (oq_messages openaiPayload)
                data with
        | inl e => ([], on_throw e)
        | inr response =>
            ([], {| reply_code := 200;
                    reply_payload := payload_message response |})
        end
    end
  else stream (oq_model openaiPayload) resp.
End Handler.

End Proxy.

(* ================================================================== *)
(** * Properties *)
(* ================================================================== *)

(** ** JSON values *)

Module JsonFacts.

Lemma json_eqb_eq (a b : json) : json_eqb a b = true -> a = b.
Proof.
  revert b. induction a using json_nested_ind; intros [] E; simpl in E;
    try discriminate; try reflexivity.
  - apply Bool.eqb_prop in E. now subst.
  - apply Z.eqb_eq in E. now subst.
  - apply String.eqb_eq in E. now subst.
  - f_equal. revert xs0 E.
    induction H as [|x l Hx Hl IH]; intros [|y r] E; try discriminate.
    + reflexivity.
    + apply andb_prop in E as [E1 E2]. f_equal; [now apply Hx | now apply IH].
  - f_equal. revert kvs0 E.
    induction H as [|[k x] l Hx Hl IH]; intros [|[k' y] r] E;
      try discriminate.
    + reflexivity.
    + apply andb_prop in E as [E12 E3]. apply andb_prop in E12 as [E1 E2].
      apply String.eqb_eq in E1. subst k'.
      f_equal; [f_equal; now apply Hx | now apply IH].
Qed.

Lemma json_eqb_refl (a : json) : json_eqb a a = true.
Proof.
  induction a using json_nested_ind; simpl; try reflexivity.
  - now destruct b.
  - apply Z.eqb_refl.
  - apply String.eqb_refl.
  - induction H as [|x l Hx _ IH]; [reflexivity | now rewrite Hx, IH].
  - induction H as [|[k x] l Hx _ IH]; [reflexivity|].
    simpl in Hx. now rewrite String.eqb_refl, Hx, IH.
Qed.

Lemma obj_get_map (g : string -> json -> json) key kvs :
  obj_get key (map (fun kv => (fst kv, g (fst kv) (snd kv))) kvs)
  = option_map (g key) (obj_get key kvs).
Proof.
  induction kvs as [|[k v] rest IH]; simpl; [reflexivity|].
  destruct (String.eqb k key) eqn:E; [|exact IH].
  apply String.eqb_eq in E. now subst.
Qed.

Lemma obj_get_remove_same key kvs : obj_get key (remove_key key kvs) = None.
Proof.
  induction kvs as [|[k v] rest IH]; simpl; [reflexivity|].
  destruct (String.eqb k key) eqn:E; simpl; [exact IH|].
  now rewrite E.
Qed.

Lemma obj_get_remove_other key key' kvs :
  key <> key' -> obj_get key' (remove_key key kvs) = obj_get key' kvs.
Proof.
  intros Hne. induction kvs as [|[k v] rest IH]; simpl; [reflexivity|].
  destruct (String.eqb k key) eqn:E; simpl.
  - apply String.eqb_eq in E. subst k.
    destruct (String.eqb key key') eqn:E'; [|exact IH].
    apply String.eqb_eq in E'. contradiction.
  - now rewrite IH.
Qed.

End JsonFacts.

(** ** SchemaSanitizer *)

Module SanitizerFacts.
Import Sanitizer JsonFacts.

(** The loop body, entry by entry. *)
Definition sanitize_entry (kv : string * json) : string * json :=
  (fst kv, entry_value (fst kv) (snd kv)).

Lemma removeUriFormat_obj kvs :
  removeUriFormat (JObj kvs)
  = if is_uri_string kvs then JObj (remove_key "format" kvs)
    else JObj (map sanitize_entry kvs).
Proof.
  simpl. destruct (is_uri_string kvs); [reflexivity|]. f_equal.
  apply map_ext. intros [key v]. unfold sanitize_entry, entry_value. simpl.
  f_equal.
  destruct (String.eqb key "properties" && typeof_object v) eqn:E1.
  - destruct v; try reflexivity. f_equal. apply map_ext. now intros [].
  - destruct (String.eqb key "items" && typeof_object v); [reflexivity|].
    destruct (String.eqb key "additionalProperties" && typeof_object v);
      [reflexivity|].
    destruct (combinator_key key && isArray v) eqn:E4; [|reflexivity].
    destruct v; try reflexivity; now rewrite andb_false_r in E4.
Qed.

Lemma removeUriFormat_arr xs :
  removeUriFormat (JArr xs) = JArr (map removeUriFormat xs).
Proof. reflexivity. Qed.

Lemma entry_value_other key v :
  String.eqb key "properties" = false -> entry_value key v = removeUriFormat v.
Proof. intros E. unfold entry_value. now rewrite E. Qed.

Lemma entry_value_scalar key v :
  typeof_object v = false -> entry_value key v = v.
Proof.
  intros E. unfold entry_value. rewrite E, andb_false_r.
  destruct v; try reflexivity; discriminate.
Qed.

(** The sanitizer never turns a value into a string, nor a string into
    something else. *)
Lemma is_str_removeUriFormat s v :
  is_str s (Some (removeUriFormat v)) = is_str s (Some v).
Proof.
  destruct v; try reflexivity.
  rewrite removeUriFormat_obj. now destruct (is_uri_string kvs).
Qed.

Lemma is_uri_string_sanitized kvs :
  is_uri_string (map sanitize_entry kvs) = is_uri_string kvs.
Proof.
  unfold is_uri_string, sanitize_entry.
  rewrite !(obj_get_map entry_value).
  assert (H : forall key, String.eqb key "properties" = false ->
            is_str "string" (option_map (entry_value key) (obj_get key kvs))
            = is_str "string" (obj_get key kvs)
            /\ is_str "uri" (option_map (entry_value key) (obj_get key kvs))
               = is_str "uri" (obj_get key kvs)).
  { intros key E. destruct (obj_get key kvs) as [v|]; simpl; [|easy].
    rewrite (entry_value_other _ _ E). split; apply is_str_removeUriFormat. }
  destruct (H "type" eq_refl) as [-> _].
  destruct (H "format" eq_refl) as [_ ->]. reflexivity.
Qed.

Lemma map_index_entries i xs :
  map (fun pkv => (fst pkv, removeUriFormat (snd pkv))) (index_entries i xs)
  = index_entries i (map removeUriFormat xs).
Proof.
  revert i. induction xs as [|x rest IH]; intros i; simpl; [reflexivity|].
  now rewrite IH.
Qed.

(** Idempotence at one value, and at the values below it. *)
Definition idem (x : json) : Prop :=
  settled x = true -> removeUriFormat (removeUriFormat x) = removeUriFormat x.

Definition below (x : json) : list json :=
  match x with
  | JArr xs => xs
  | JObj kvs => map snd kvs
  | _ => []
  end.

Lemma map_idem xs :
  Forall idem xs -> forallb settled xs = true ->
  map removeUriFormat (map removeUriFormat xs) = map removeUriFormat xs.
Proof.
  induction 1 as [|x l Hx _ IH]; simpl; intros E; [reflexivity|].
  apply andb_prop in E as [E1 E2]. now rewrite (Hx E1), (IH E2).
Qed.

Lemma entry_idem key v :
  idem v -> Forall idem (below v) ->
  (if String.eqb key "properties" then
     match v with
     | JObj ps => forallb (fun pkv => match pkv with (_, pv) => settled pv end) ps
     | JArr xs => forallb settled xs
     | _ => true
     end
   else settled v) = true ->
  entry_value key (entry_value key v) = entry_value key v.
Proof.
  intros Hv Hbelow Hs.
  destruct (String.eqb key "properties") eqn:E.
  - unfold entry_value. rewrite E. destruct v; simpl; try reflexivity.
    + (* an array under [properties] *)
      rewrite map_index_entries. do 2 f_equal. now apply map_idem.
    + (* an object under [properties] *)
      f_equal. rewrite map_map. simpl in Hbelow. clear Hv.
      induction kvs as [|[pk pv] rest IH]; simpl in *; [reflexivity|].
      apply andb_prop in Hs as [S1 S2]. inversion Hbelow; subst.
      f_equal; [f_equal; auto | auto].
  - rewrite !(entry_value_other _ _ E). now apply Hv.
Qed.

Lemma removeUriFormat_idem_below x : idem x /\ Forall idem (below x).
Proof.
  induction x using json_nested_ind; simpl; try (split; [easy|constructor]).
  - (* array *)
    assert (Hall : Forall idem xs).
    { eapply Forall_impl; [|exact H]. now intros a [Ha _]. }
    split; [|exact Hall].
    intros S. simpl in S. rewrite !removeUriFormat_arr. f_equal.
    now apply map_idem.
  - (* object *)
    assert (Hall : Forall idem (map snd kvs)).
    { apply Forall_map. eapply Forall_impl; [|exact H]. now intros a [Ha _]. }
    split; [|exact Hall].
    intros S. simpl in S. rewrite removeUriFormat_obj.
    destruct (is_uri_string kvs) eqn:U.
    + now apply json_eqb_eq.
    + rewrite removeUriFormat_obj, is_uri_string_sanitized, U. f_equal.
      rewrite map_map. clear U Hall.
      induction H as [|[key v] rest [Hv Hb] _ IH]; simpl in *; [reflexivity|].
      apply andb_prop in S as [S1 S2]. rewrite (IH S2). f_equal.
      unfold sanitize_entry. simpl. f_equal. now apply entry_idem.
Qed.

(** A fixed point of the sanitizer holds no string/uri object where the
    traversal goes. *)
Lemma remove_key_shorter key kvs v :
  obj_get key kvs = Some v ->
  (List.length (remove_key key kvs) < List.length kvs)%nat.
Proof.
  induction kvs as [|[k w] rest IH]; simpl; [discriminate|].
  destruct (String.eqb k key) eqn:E; simpl.
  - intros _. pose proof (filter_length_le
      (fun kv : string * json => negb (String.eqb (fst kv) key)) rest).
    unfold remove_key. lia.
  - intros G. specialize (IH G). lia.
Qed.

Lemma is_uri_string_not_fixed kvs :
  is_uri_string kvs = true -> remove_key "format" kvs <> kvs.
Proof.
  intros U E. unfold is_uri_string in U. apply andb_prop in U as [_ U].
  destruct (obj_get "format" kvs) as [v|] eqn:G; [|discriminate].
  pose proof (remove_key_shorter _ _ _ G) as L. rewrite E in L. lia.
Qed.

Definition fixed_free (x : json) : Prop :=
  removeUriFormat x = x -> uri_free x = true.

Lemma map_fixed_free xs :
  Forall fixed_free xs -> map removeUriFormat xs = xs ->
  forallb uri_free xs = true.
Proof.
  induction 1 as [|x l Hx _ IH]; simpl; intros E; [reflexivity|].
  injection E as E1 E2. now rewrite (Hx E1), (IH E2).
Qed.

Lemma fixed_uri_free_below x : fixed_free x /\ Forall fixed_free (below x).
Proof.
  induction x using json_nested_ind; simpl; try (split; [easy|constructor]).
  - assert (Hall : Forall fixed_free xs).
    { eapply Forall_impl; [|exact H]. now intros a [Ha _]. }
    split; [|exact Hall].
    intros E. rewrite removeUriFormat_arr in E. injection E as E.
    simpl. now apply map_fixed_free.
  - assert (Hall : Forall fixed_free (map snd kvs)).
    { apply Forall_map. eapply Forall_impl; [|exact H]. now intros a [Ha _]. }
    split; [|exact Hall].
    intros E. rewrite removeUriFormat_obj in E. simpl.
    destruct (is_uri_string kvs) eqn:U.
    + injection E as E. now apply is_uri_string_not_fixed in U.
    + injection E as E. simpl. clear U Hall.
      induction H as [|[key v] rest [Hv Hb] _ IH]; simpl in *; [reflexivity|].
      injection E as E1 E2. rewrite (IH E2), andb_true_r.
      destruct (String.eqb key "properties") eqn:K.
      * unfold entry_value in E1. rewrite K in E1.
        destruct v; simpl in *; try reflexivity; try discriminate.
        injection E1 as E1. clear Hv.
        induction kvs as [|[pk pv] ps IHps]; simpl in *; [reflexivity|].
        injection E1 as E1 E1'. inversion Hb; subst.
        rewrite IHps; auto. rewrite andb_true_r. auto.
      * rewrite (entry_value_other _ _ K) in E1. now apply Hv.
Qed.

(** String/uri objects that hold scalars only are settled. *)
Definition leaves_settled (x : json) : Prop :=
  scalar_leaves x = true -> settled x = true.

Lemma scalar_entries_fixed kvs :
  forallb (fun kv : string * json => match kv with (_, v) => is_scalar v end)
          kvs = true ->
  map sanitize_entry kvs = kvs.
Proof.
  induction kvs as [|[k v] rest IH]; simpl; intros E; [reflexivity|].
  apply andb_prop in E as [E1 E2]. rewrite (IH E2). f_equal.
  unfold sanitize_entry. simpl. f_equal. apply entry_value_scalar.
  now destruct v.
Qed.

Lemma forallb_remove_key (p : string * json -> bool) key kvs :
  forallb p kvs = true -> forallb p (remove_key key kvs) = true.
Proof.
  induction kvs as [|kv rest IH]; simpl; intros E; [reflexivity|].
  apply andb_prop in E as [E1 E2].
  destruct (negb (String.eqb (fst kv) key)); simpl; [rewrite E1|]; auto.
Qed.

Lemma scalar_leaves_settled_below x :
  leaves_settled x /\ Forall leaves_settled (below x).
Proof.
  induction x using json_nested_ind; cbn [below];
    try (split; [easy|constructor]).
  - assert (Hall : Forall leaves_settled xs).
    { eapply Forall_impl; [|exact H]. now intros a [Ha _]. }
    split; [|exact Hall]. unfold leaves_settled. simpl.
    clear H. induction Hall as [|x l Hx _ IH]; simpl; [reflexivity|].
    intros E. apply andb_prop in E as [E1 E2]. now rewrite (Hx E1), (IH E2).
  - assert (Hall : Forall leaves_settled (map snd kvs)).
    { apply Forall_map. eapply Forall_impl; [|exact H]. now intros a [Ha _]. }
    split; [|exact Hall]. unfold leaves_settled.
    cbn [settled scalar_leaves].
    destruct (is_uri_string kvs) eqn:U.
    + intros E. rewrite removeUriFormat_obj.
      assert (N : is_uri_string (remove_key "format" kvs) = false).
      { unfold is_uri_string. rewrite obj_get_remove_same. simpl.
        apply andb_false_r. }
      rewrite N, scalar_entries_fixed by now apply forallb_remove_key.
      apply json_eqb_refl.
    + clear U Hall. induction H as [|[key v] rest [Hv Hb] _ IH]; simpl;
        [reflexivity|].
      intros E. apply andb_prop in E as [E1 E2]. rewrite (IH E2), andb_true_r.
      destruct (String.eqb key "properties"); [|now apply Hv].
      destruct v; simpl in *; try reflexivity.
      * clear Hv. induction Hb as [|x l Hx _ IHl]; simpl in *; [reflexivity|].
        apply andb_prop in E1 as [F1 F2]. now rewrite (Hx F1), (IHl F2).
      * clear Hv. induction kvs as [|[pk pv] ps IHps]; simpl in *;
          [reflexivity|].
        apply andb_prop in E1 as [F1 F2]. inversion Hb; subst.
        rewrite IHps; auto. rewrite andb_true_r. auto.
Qed.

Lemma scalar_leaves_settled x : scalar_leaves x = true -> settled x = true.
Proof. apply scalar_leaves_settled_below. Qed.

(** A string/uri schema that nests another one under [items]. *)
Definition uri_schema : json :=
  JObj [("type", JStr "string"); ("format", JStr "uri")].

Definition nested_uri_schema : json :=
  JObj [("type", JStr "string"); ("format", JStr "uri");
        ("items", uri_schema)].

(** A tool schema with a string/uri leaf under [properties], [items],
    [additionalProperties] and [anyOf]. *)
Definition link_schema : json :=
  JObj [("type", JStr "object");
        ("properties",
         JObj [("url", JObj [("type", JStr "string"); ("format", JStr "uri");
                             ("description", JStr "target")]);
               ("tags", JObj [("type", JStr "array"); ("items", uri_schema)])]);
        ("additionalProperties", uri_schema);
        ("anyOf", JArr [uri_schema; JObj [("type", JStr "number")]])].

(** C5: the code departs from the claim on a string/uri object that
    nests another one.  The branch for such an object returns the
    remaining entries without descending into them, where every other
    branch recurses: the string/uri object under [items] keeps its
    [format] after one pass, so the format is not removed at every
    depth, and a second pass, which removes it, gives another result
    than the first, so the sanitizer is not idempotent. *)
Theorem removeUriFormat_second_pass_differs :
  removeUriFormat nested_uri_schema
  = JObj [("type", JStr "string");
          ("items", JObj [("type", JStr "string"); ("format", JStr "uri")])]
  /\ uri_free (removeUriFormat nested_uri_schema) = false
  /\ removeUriFormat (removeUriFormat nested_uri_schema)
     = JObj [("type", JStr "string"); ("items", JObj [("type", JStr "string")])]
  /\ removeUriFormat (removeUriFormat nested_uri_schema)
     <> removeUriFormat nested_uri_schema.
Proof. repeat split; try reflexivity. discriminate. Qed.

(** Where the code does what the claim says: on every input whose
    string/uri objects are settled (what remains of each once [format]
    is dropped is left unchanged by the sanitizer), the sanitizer is
    idempotent and its result holds no string/uri object wherever the
    traversal goes: top level, array elements, the value of every key
    (so [items], [additionalProperties], [anyOf], [allOf], [oneOf]) and
    the entries of [properties]. *)
Lemma removeUriFormat_idempotent_settled (x : json) :
  settled x = true ->
  removeUriFormat (removeUriFormat x) = removeUriFormat x
  /\ uri_free (removeUriFormat x) = true.
Proof.
  intros S.
  assert (I : removeUriFormat (removeUriFormat x) = removeUriFormat x)
    by now apply (proj1 (removeUriFormat_idem_below x)).
  split; [exact I|].
  now apply (proj1 (fixed_uri_free_below (removeUriFormat x))).
Qed.

Lemma removeUriFormat_idempotent_settled_witness :
  settled link_schema = true
  /\ removeUriFormat (removeUriFormat link_schema) = removeUriFormat link_schema
  /\ uri_free (removeUriFormat link_schema) = true.
Proof.
  split; [reflexivity|].
  apply (removeUriFormat_idempotent_settled link_schema). reflexivity.
Defined.

(** What one pass does to an object: a string/uri object loses exactly
    its [format] entry; any other object keeps its keys, in order. *)
Lemma removeUriFormat_keys (kvs : list (string * json)) :
  exists kvs',
    removeUriFormat (JObj kvs) = JObj kvs'
    /\ map fst kvs'
       = if is_uri_string kvs
         then filter (fun k => negb (String.eqb k "format")) (map fst kvs)
         else map fst kvs.
Proof.
  rewrite removeUriFormat_obj. destruct (is_uri_string kvs).
  - eexists. split; [reflexivity|]. unfold remove_key.
    induction kvs as [|[k v] rest IH]; simpl; [reflexivity|].
    destruct (String.eqb k "format"); simpl; now rewrite IH.
  - eexists. split; [reflexivity|]. rewrite map_map. reflexivity.
Qed.

End SanitizerFacts.

(** ** JavaScript strings *)

Module JsStringFacts.

Lemma length_append (a b : string) :
  String.length (a ++ b)%string = (String.length a + String.length b)%nat.
Proof. induction a as [|c a IH]; simpl; [reflexivity | now rewrite IH]. Qed.

Lemma append_empty_r (s : string) : (s ++ EmptyString)%string = s.
Proof. induction s; simpl; congruence. Qed.

Lemma append_assoc (a b c : string) :
  ((a ++ b) ++ c)%string = (a ++ b ++ c)%string.
Proof. induction a; simpl; congruence. Qed.

Lemma substring_from_app (a b : string) :
  substring_from (String.length a) (a ++ b)%string = b.
Proof. induction a as [|c a IH]; simpl; [now destruct b | exact IH]. Qed.

Lemma prefix_app (a s : string) :
  String.prefix a s = true ->
  s = (a ++ substring_from (String.length a) s)%string.
Proof.
  revert s. induction a as [|c a IH]; intros s H; simpl.
  - now destruct s.
  - destruct s as [|d s]; simpl in H; [discriminate|].
    destruct (Ascii.ascii_dec c d) as [->|]; [|discriminate].
    simpl. f_equal. now apply IH.
Qed.

Lemma prefix_length (a s : string) :
  String.prefix a s = true -> (String.length a <= String.length s)%nat.
Proof.
  intros H. apply prefix_app in H. apply (f_equal String.length) in H.
  rewrite length_append in H. lia.
Qed.


(** The number of occurrences of a character. *)
Fixpoint occurrences (c : ascii) (s : string) : nat :=
  match s with
  | EmptyString => 0
  | String d rest => (if Ascii.eqb d c then 1 else 0) + occurrences c rest
  end.

Lemma split_nonempty sep s : split sep s <> [].
Proof.
  destruct s as [|c s]; simpl; [discriminate|].
  destruct (Ascii.eqb c sep); [discriminate|].
  destruct (split sep s); discriminate.
Qed.

Lemma split_length sep s :
  List.length (split sep s) = S (occurrences sep s).
Proof.
  induction s as [|c s IH]; simpl; [reflexivity|].
  destruct (Ascii.eqb c sep); simpl; [now rewrite IH|].
  pose proof (split_nonempty sep s).
  destruct (split sep s); [contradiction | exact IH].
Qed.

(** [s.split(' ').length] is one more than the number of spaces. *)
Lemma split_count_spaces s : split_count s = S (occurrences " "%char s).
Proof. apply split_length. Qed.

End JsStringFacts.

(** ** StreamingReencoder *)

Module StreamingFacts.
Import Streaming JsStringFacts.

Definition accumulators (c : Conn) : list (Z * string) :=
  toolCallAccumulators (streamingState c).

(** *** The accumulator map *)

Lemma acc_get_set_same idx v acc : acc_get idx (acc_set idx v acc) = Some v.
Proof.
  induction acc as [|[k old] rest IH]; simpl.
  - now rewrite Z.eqb_refl.
  - destruct (Z.eqb k idx) eqn:E; simpl; now rewrite E.
Qed.

Lemma acc_get_set_other idx idx' v acc :
  idx <> idx' -> acc_get idx' (acc_set idx v acc) = acc_get idx' acc.
Proof.
  intros Hne. induction acc as [|[k old] rest IH]; simpl.
  - destruct (Z.eqb idx idx') eqn:E; [|reflexivity].
    apply Z.eqb_eq in E. contradiction.
  - destruct (Z.eqb k idx) eqn:E; simpl.
    + apply Z.eqb_eq in E. subst k.
      destruct (Z.eqb idx idx') eqn:E'; [|reflexivity].
      apply Z.eqb_eq in E'. contradiction.
    + now rewrite IH.
Qed.

Lemma acc_get_None idx acc : acc_get idx acc = None <-> ~ In idx (map fst acc).
Proof.
  induction acc as [|[k v] rest IH]; simpl; [tauto|].
  destruct (Z.eqb k idx) eqn:E.
  - apply Z.eqb_eq in E. split; [discriminate | tauto].
  - apply Z.eqb_neq in E. tauto.
Qed.

Lemma acc_set_keys_present idx v acc old :
  acc_get idx acc = Some old -> map fst (acc_set idx v acc) = map fst acc.
Proof.
  induction acc as [|[k w] rest IH]; simpl; [discriminate|].
  destruct (Z.eqb k idx) eqn:E; simpl; [reflexivity|].
  intros G. now rewrite IH.
Qed.

Lemma acc_set_keys_absent idx v acc :
  acc_get idx acc = None -> map fst (acc_set idx v acc) = map fst acc ++ [idx].
Proof.
  induction acc as [|[k w] rest IH]; simpl; [reflexivity|].
  destruct (Z.eqb k idx) eqn:E; simpl; [discriminate|].
  intros G. now rewrite IH.
Qed.

(** *** The order of [for ... in] *)





(** *** One tool-call delta *)

Definition start_of (toolCall : OpenAIToolCall) : RawAction :=
  sendSSE (content_block_start (block_index toolCall)
             (start_tool_use (tc_id toolCall) (fn_name (tc_function toolCall)))).

Definition json_delta (idx : Z) (text : string) : RawAction :=
  sendSSE (content_block_delta idx (input_json_delta text)).

(** The value stored for a block ([""] right after it was opened). *)
Definition stored (idx : Z) (acc : list (Z * string)) : string :=
  match acc_get idx acc with
  | Some old => old
  | None => EmptyString
  end.

Definition arguments_of (toolCall : OpenAIToolCall) : string :=
  or_empty (fn_arguments (tc_function toolCall)).

(** What the diff step writes for the stored value [old] and the new
    cumulative value [new]. *)
Definition diff_step (idx : Z) (old new : string) : list RawAction :=
  if (String.length old <? String.length new)%nat
  then [json_delta idx (substring_from (String.length old) new)]
  else [].

Definition opened_by (toolCall : OpenAIToolCall) (acc : list (Z * string))
  : list RawAction :=
  match acc_get (block_index toolCall) acc with
  | None => [start_of toolCall]
  | Some _ => []
  end.

Lemma on_tool_call_raw c toolCall :
  raw (on_tool_call c toolCall)
  = raw c ++ opened_by toolCall (accumulators c)
    ++ diff_step (block_index toolCall)
         (stored (block_index toolCall) (accumulators c))
         (arguments_of toolCall).
Proof.
  unfold on_tool_call, opened_by, diff_step, stored, accumulators,
    arguments_of, start_of, json_delta.
  destruct c as [ok [ct rs us tb tc acc mid] tr]. simpl.
  destruct (acc_get (block_index toolCall) acc) as [old|] eqn:G; simpl.
  - rewrite G.
    destruct (String.length old <? _)%nat; simpl; [reflexivity|].
    now rewrite app_nil_r.
  - rewrite acc_get_set_same. simpl.
    destruct (0 <? _)%nat; simpl; [now rewrite <- app_assoc | reflexivity].
Qed.

Lemma on_tool_call_accumulators c toolCall :
  let idx := block_index toolCall in
  let opened :=
    match acc_get idx (accumulators c) with
    | None => acc_set idx EmptyString (accumulators c)
    | Some _ => accumulators c
    end in
  accumulators (on_tool_call c toolCall)
  = if (String.length (stored idx (accumulators c))
        <? String.length (arguments_of toolCall))%nat
    then acc_set idx (arguments_of toolCall) opened
    else opened.
Proof.
  unfold on_tool_call, stored, accumulators, arguments_of.
  destruct c as [ok [ct rs us tb tc acc mid] tr]. simpl.
  destruct (acc_get (block_index toolCall) acc) as [old|] eqn:G; simpl.
  - rewrite G. now destruct (String.length old <? _)%nat.
  - rewrite acc_get_set_same. simpl. now destruct (0 <? _)%nat.
Qed.

Lemma on_tool_call_flags c toolCall :
  isSucceeded (on_tool_call c toolCall) = isSucceeded c
  /\ encounteredToolCall (streamingState (on_tool_call c toolCall)) = true
  /\ textBlockStarted (streamingState (on_tool_call c toolCall))
     = textBlockStarted (streamingState c)
  /\ usage (streamingState (on_tool_call c toolCall))
     = usage (streamingState c).
Proof.
  unfold on_tool_call.
  destruct c as [ok [ct rs us tb tc acc mid] tr]. simpl.
  destruct (acc_get (block_index toolCall) acc) as [old|] eqn:G; simpl.
  - rewrite G. now destruct (String.length old <? _)%nat.
  - rewrite acc_get_set_same. simpl. now destruct (0 <? _)%nat.
Qed.

(** The stored value after one delta: the longer of the two. *)
Lemma on_tool_call_stored c toolCall :
  let idx := block_index toolCall in
  let old := stored idx (accumulators c) in
  stored idx (accumulators (on_tool_call c toolCall))
  = if (String.length old <? String.length (arguments_of toolCall))%nat
    then arguments_of toolCall else old.
Proof.
  simpl. rewrite on_tool_call_accumulators. unfold stored at 1 3.
  destruct (String.length _ <? _)%nat.
  - now rewrite acc_get_set_same.
  - unfold stored.
    destruct (acc_get (block_index toolCall) (accumulators c)) eqn:G.
    + now rewrite G.
    + now rewrite acc_get_set_same.
Qed.

Lemma on_tool_call_present c toolCall :
  acc_get (block_index toolCall) (accumulators (on_tool_call c toolCall))
  <> None.
Proof.
  rewrite on_tool_call_accumulators.
  destruct (String.length _ <? _)%nat; [now rewrite acc_get_set_same|].
  destruct (acc_get (block_index toolCall) (accumulators c)) eqn:G.
  - now rewrite G.
  - now rewrite acc_get_set_same.
Qed.

(** *** Tool-call delta diffing: one delta after the other *)

(** What a run of deltas for one block writes, from the stored value
    [old] on: a fragment exactly when the new value is strictly longer
    than the stored one, and then the stored value is replaced. *)
Fixpoint diff_deltas (idx : Z) (old : string) (args : list string)
  : list RawAction :=
  match args with
  | [] => []
  | new :: rest =>
      diff_step idx old new
      ++ diff_deltas idx
           (if (String.length old <? String.length new)%nat then new else old)
           rest
  end.




Lemma fold_tool_calls idx toolCalls : forall c,
  (forall toolCall, In toolCall toolCalls -> block_index toolCall = idx) ->
  acc_get idx (accumulators c) <> None ->
  raw (fold_left on_tool_call toolCalls c)
  = raw c ++ diff_deltas idx (stored idx (accumulators c))
               (map arguments_of toolCalls)
  /\ stored idx (accumulators (fold_left on_tool_call toolCalls c))
     = fold_left (fun old new =>
                    if (String.length old <? String.length new)%nat
                    then new else old)
                 (map arguments_of toolCalls) (stored idx (accumulators c)).
Proof.
  induction toolCalls as [|toolCall rest IH]; intros c Hidx Hopen; simpl.
  - now rewrite app_nil_r.
  - assert (Hi : block_index toolCall = idx) by (apply Hidx; now left).
    destruct (IH (on_tool_call c toolCall)) as [R S].
    { intros t Ht. apply Hidx. now right. }
    { rewrite <- Hi. apply on_tool_call_present. }
    pose proof (on_tool_call_stored c toolCall) as St. simpl in St.
    rewrite Hi in St. rewrite R, S, St, on_tool_call_raw, Hi.
    unfold opened_by. rewrite Hi.
    destruct (acc_get idx (accumulators c)); [|contradiction].
    simpl. now rewrite <- app_assoc.
Qed.


Lemma concat_app (a b : list string) :
  String.concat EmptyString (a ++ b)
  = (String.concat EmptyString a ++ String.concat EmptyString b)%string.
Proof.
  induction a as [|x a IH]; simpl; [reflexivity|].
  destruct a as [|y a]; simpl in *.
  - destruct b; simpl; [induction x; simpl; congruence | reflexivity].
  - rewrite IH. clear. induction x; simpl; congruence.
Qed.



(** A backend tool-call delta as it arrives on the stream. *)
Definition tool_call_delta (index : option Z) (id name args : option string)
  : OpenAIToolCall :=
  {| tc_index := index;
     tc_id := id;
     tc_function := {| fn_type := None; fn_id := None; fn_function := None;
                       fn_name := name; fn_arguments := args |} |}.

(** The cumulative texts [{], [{"a":1] and [{"a":1}]. *)
Definition args_1 : string := "{".
Definition args_2 : string := "{" ++ dquote ++ "a" ++ dquote ++ ":1".
Definition args_3 : string := "{" ++ dquote ++ "a" ++ dquote ++ ":1}".

Definition weather_1 : OpenAIToolCall :=
  tool_call_delta (Some 0%Z) (Some "call_1") (Some "get_weather") (Some args_1).
Definition weather_2 : OpenAIToolCall :=
  tool_call_delta (Some 0%Z) None None (Some args_2).
Definition weather_3 : OpenAIToolCall :=
  tool_call_delta (Some 0%Z) None None (Some args_3).

(** *** Index defaulting (C10) *)


Definition search_call : OpenAIToolCall :=
  tool_call_delta None (Some "call_a") (Some "search") (Some "{}").
Definition fetch_call : OpenAIToolCall :=
  tool_call_delta (Some 0%Z) (Some "call_b") (Some "fetch") (Some "{}").


(** The two calls above on the wire: one block, opened for the first. *)
Example two_calls_one_block :
  raw (on_tool_call (on_tool_call (initialConn "msg_s") search_call) fetch_call)
  = [sendSSE (content_block_start 0
                (start_tool_use (Some "call_a") (Some "search")));
     json_delta 0 "{}"].
Proof. reflexivity. Qed.

(** *** Framing of the output (C2) *)

Definition block_start (idx : Z) (b : StartBlock) : RawAction :=
  sendSSE (content_block_start idx b).

Definition block_stop (idx : Z) : RawAction := sendSSE (content_block_stop idx).

(** A [content_block_start] or a [content_block_delta]. *)
Definition is_content (a : RawAction) : Prop :=
  match a with
  | sendSSE (content_block_start _ _) | sendSSE (content_block_delta _ _) => True
  | _ => False
  end.

Definition is_delta (a : RawAction) : Prop :=
  match a with
  | sendSSE (content_block_delta _ _) => True
  | _ => False
  end.

(** Every [content_block_delta] comes after a [content_block_start] of
    its index. *)
Definition starts_precede_deltas (tr : list RawAction) : Prop :=
  forall pre idx d post,
    tr = pre ++ sendSSE (content_block_delta idx d) :: post ->
    exists b, In (block_start idx b) pre.

Lemma split_last (tr pre post : list RawAction) (a x : RawAction) :
  tr ++ [a] = pre ++ x :: post ->
  (post = [] /\ pre = tr /\ x = a)
  \/ (exists post', post = post' ++ [a] /\ tr = pre ++ x :: post').
Proof.
  intros E. destruct (exists_last (l := x :: post)) as (l & z & Hl);
    [discriminate|].
  rewrite Hl, app_assoc in E. apply app_inj_tail in E as [E1 E2]. subst z.
  destruct l as [|y l]; simpl in Hl.
  - injection Hl as -> ->. left. rewrite app_nil_r in E1. now subst.
  - injection Hl as -> ->. right. exists l. split; [reflexivity|].
    now rewrite E1.
Qed.

Lemma starts_precede_deltas_nil : starts_precede_deltas [].
Proof. intros [|] ? ? ? E; discriminate. Qed.

Lemma starts_precede_deltas_snoc tr a :
  starts_precede_deltas tr ->
  (forall idx d, a = sendSSE (content_block_delta idx d) ->
                 exists b, In (block_start idx b) tr) ->
  starts_precede_deltas (tr ++ [a]).
Proof.
  intros H Ha pre idx d post E.
  apply split_last in E as [(-> & -> & E)|(post' & -> & E)].
  - now apply (Ha idx d).
  - now apply (H pre idx d post').
Qed.

Lemma starts_precede_deltas_quiet tr more :
  starts_precede_deltas tr ->
  Forall (fun a => ~ is_delta a) more ->
  starts_precede_deltas (tr ++ more).
Proof.
  intros H Hq. induction more as [|a more IH] using rev_ind.
  - now rewrite app_nil_r.
  - apply Forall_app in Hq as [Hm Ha]. rewrite app_assoc.
    apply starts_precede_deltas_snoc; [now apply IH|].
    intros idx d ->. inversion Ha as [|? ? Hd]; subst. now destruct Hd.
Qed.

Lemma diff_step_cases idx old new :
  diff_step idx old new = []
  \/ exists text, diff_step idx old new = [json_delta idx text].
Proof.
  unfold diff_step. destruct (String.length old <? String.length new)%nat;
    [right; eexists; reflexivity | now left].
Qed.

Lemma on_tool_call_keys c toolCall :
  map fst (accumulators (on_tool_call c toolCall))
  = map fst (accumulators c)
    ++ match acc_get (block_index toolCall) (accumulators c) with
       | None => [block_index toolCall]
       | Some _ => []
       end.
Proof.
  rewrite on_tool_call_accumulators. cbv zeta.
  destruct (acc_get (block_index toolCall) (accumulators c)) as [old|] eqn:G.
  - rewrite app_nil_r.
    destruct (String.length _ <? _)%nat; [|reflexivity].
    now apply acc_set_keys_present with (old := old).
  - destruct (String.length _ <? _)%nat.
    + rewrite acc_set_keys_present with (old := EmptyString);
        [|apply acc_get_set_same].
      now apply acc_set_keys_absent.
    + now apply acc_set_keys_absent.
Qed.

Lemma open_text_block_spec c :
  raw (open_text_block c)
  = raw c ++ (if textBlockStarted (streamingState c) then []
              else [block_start 0 start_text])
  /\ textBlockStarted (streamingState (open_text_block c)) = true
  /\ accumulators (open_text_block c) = accumulators c
  /\ isSucceeded (open_text_block c) = isSucceeded c
  /\ encounteredToolCall (streamingState (open_text_block c))
     = encounteredToolCall (streamingState c).
Proof.
  unfold open_text_block, accumulators.
  destruct c as [ok [ct rs us tb tc acc mid] tr]. simpl.
  destruct tb; simpl; [now rewrite app_nil_r | easy].
Qed.

Section Framing.
Variable parseInt_exponent : Z -> Z.
Variable model : string.
Variable startId : string.

(** What [sendSuccessMessage] writes. *)
Definition header : list RawAction :=
  [writeHead 200; sendSSE (message_start startId model); sendSSE ping].

(** The state of a request between two lines: nothing is written
    before the stream is opened; once it is, the output is the header
    followed by block starts and deltas only, each delta after a start
    of its index, and every open block has its start on the wire. *)
Record framed (c : Conn) : Prop := {
  fr_shape :
    if isSucceeded c
    then exists body, raw c = header ++ body /\ Forall is_content body
    else raw c = [];
  fr_deltas : starts_precede_deltas (raw c);
  fr_keys : NoDup (map fst (accumulators c));
  fr_open :
    forall idx, In idx (map fst (accumulators c)) ->
                exists b, In (block_start idx b) (raw c);
  fr_text :
    textBlockStarted (streamingState c) = true ->
    exists b, In (block_start 0 b) (raw c)
}.

Lemma framed_initial stateId : framed (initialConn stateId).
Proof.
  constructor; simpl; try easy.
  - apply starts_precede_deltas_nil.
  - constructor.
Qed.

Lemma on_tool_call_framed c toolCall :
  framed c -> isSucceeded c = true -> framed (on_tool_call c toolCall).
Proof.
  intros [Hs Hd Hk Ho Ht] Hok.
  pose proof (on_tool_call_raw c toolCall) as R.
  pose proof (on_tool_call_keys c toolCall) as K.
  destruct (on_tool_call_flags c toolCall) as (F1 & _ & F3 & _).
  set (idx := block_index toolCall) in *.
  assert (Hop : exists b, In (block_start idx b)
                            (raw c ++ opened_by toolCall (accumulators c))).
  { unfold opened_by. fold idx.
    destruct (acc_get idx (accumulators c)) eqn:G.
    - destruct (Ho idx) as [b Hb].
      + destruct (in_dec Z.eq_dec idx (map fst (accumulators c))); [assumption|].
        apply acc_get_None in n. congruence.
      + exists b. apply in_or_app. now left.
    - eexists. apply in_or_app. right. left. reflexivity. }
  assert (Hd1 : starts_precede_deltas
                  (raw c ++ opened_by toolCall (accumulators c))).
  { apply starts_precede_deltas_quiet; [assumption|].
    unfold opened_by. destruct (acc_get _ _); repeat constructor. now intros []. }
  constructor.
  - rewrite F1, Hok. rewrite Hok in Hs. destruct Hs as (body & Eb & Hc).
    exists (body ++ opened_by toolCall (accumulators c)
                 ++ diff_step idx (stored idx (accumulators c))
                      (arguments_of toolCall)).
    split; [rewrite R, Eb; now rewrite <- app_assoc|].
    apply Forall_app. split; [assumption|]. apply Forall_app. split.
    + unfold opened_by. destruct (acc_get _ _); repeat constructor.
    + destruct (diff_step_cases idx (stored idx (accumulators c))
                  (arguments_of toolCall)) as [->|[t ->]]; repeat constructor.
  - rewrite R, app_assoc.
    destruct (diff_step_cases idx (stored idx (accumulators c))
                (arguments_of toolCall)) as [->|[t ->]].
    + now rewrite app_nil_r.
    + apply starts_precede_deltas_snoc; [assumption|].
      intros i d E. injection E as -> _. exact Hop.
  - rewrite K. unfold idx in *.
    destruct (acc_get (block_index toolCall) (accumulators c)) eqn:G.
    + now rewrite app_nil_r.
    + apply acc_get_None in G. apply NoDup_app; [assumption|repeat constructor; easy|].
      intros x Hx [<-|[]]. contradiction.
  - intros i Hi. rewrite K in Hi. rewrite R, app_assoc.
    apply in_app_or in Hi as [Hi|Hi].
    + destruct (Ho i Hi) as [b Hb]. exists b.
      apply in_or_app. left. apply in_or_app. now left.
    + destruct (acc_get idx (accumulators c)); [destruct Hi|].
      destruct Hi as [<-|[]]. destruct Hop as [b Hb]. exists b.
      apply in_or_app. now left.
  - rewrite F3. intros T. destruct (Ht T) as [b Hb]. exists b.
    rewrite R. apply in_or_app. now left.
Qed.

Lemma on_content_spec c text :
  raw (on_content c text)
  = raw c ++ (if textBlockStarted (streamingState c) then []
              else [block_start 0 start_text])
    ++ [sendSSE (content_block_delta 0 (text_delta text))]
  /\ accumulators (on_content c text) = accumulators c
  /\ isSucceeded (on_content c text) = isSucceeded c.
Proof.
  unfold on_content, open_text_block, accumulators.
  destruct c as [ok [ct rs us tb tc acc mid] tr]. simpl.
  destruct tb; simpl; [easy | now rewrite <- app_assoc].
Qed.

Lemma on_reasoning_spec c text :
  raw (on_reasoning c text)
  = raw c ++ (if textBlockStarted (streamingState c) then []
              else [block_start 0 start_text])
    ++ [sendSSE (content_block_delta 0 (thinking_delta text))]
  /\ accumulators (on_reasoning c text) = accumulators c
  /\ isSucceeded (on_reasoning c text) = isSucceeded c.
Proof.
  unfold on_reasoning, open_text_block, accumulators.
  destruct c as [ok [ct rs us tb tc acc mid] tr]. simpl.
  destruct tb; simpl; [easy | now rewrite <- app_assoc].
Qed.

(** A delta of the text block, after opening it if need be. *)
Lemma text_step_framed c c' d :
  framed c -> isSucceeded c = true ->
  raw c' = raw c ++ (if textBlockStarted (streamingState c) then []
                     else [block_start 0 start_text])
           ++ [sendSSE (content_block_delta 0 d)] ->
  accumulators c' = accumulators c ->
  isSucceeded c' = isSucceeded c ->
  framed c'.
Proof.
  intros [Hs Hd Hk Ho Ht] Hok R A S.
  set (opening := if textBlockStarted (streamingState c) then []
                  else [block_start 0 start_text]) in *.
  assert (Hop : exists b, In (block_start 0 b) (raw c ++ opening)).
  { unfold opening. destruct (textBlockStarted (streamingState c)).
    - destruct (Ht eq_refl) as [b Hb]. exists b. apply in_or_app. now left.
    - eexists. apply in_or_app. right. left. reflexivity. }
  assert (Hin : forall a, In a (raw c) -> In a (raw c')).
  { intros a Ha. rewrite R. apply in_or_app. now left. }
  constructor.
  - rewrite S, Hok. rewrite Hok in Hs. destruct Hs as (body & Eb & Hc).
    exists (body ++ opening ++ [sendSSE (content_block_delta 0 d)]).
    split; [rewrite R, Eb; now rewrite <- app_assoc|].
    apply Forall_app. split; [assumption|]. apply Forall_app. split.
    + unfold opening. destruct (textBlockStarted _); repeat constructor.
    + repeat constructor.
  - rewrite R, app_assoc. apply starts_precede_deltas_snoc.
    + apply starts_precede_deltas_quiet; [assumption|].
      unfold opening. destruct (textBlockStarted _); repeat constructor.
      now intros [].
    + intros i d' E. injection E as <- _. exact Hop.
  - now rewrite A.
  - rewrite A. intros i Hi. destruct (Ho i Hi) as [b Hb]. exists b. auto.
  - intros _. destruct Hop as [b Hb]. exists b. rewrite R, app_assoc.
    apply in_or_app. now left.
Qed.

Lemma capture_usage_spec c parsed :
  raw (capture_usage c parsed) = raw c
  /\ accumulators (capture_usage c parsed) = accumulators c
  /\ isSucceeded (capture_usage c parsed) = isSucceeded c
  /\ textBlockStarted (streamingState (capture_usage c parsed))
     = textBlockStarted (streamingState c).
Proof. unfold capture_usage. now destruct (sf_usage parsed). Qed.

Lemma capture_usage_framed c parsed :
  framed c -> framed (capture_usage c parsed).
Proof.
  intros [Hs Hd Hk Ho Ht].
  destruct (capture_usage_spec c parsed) as (R & A & S & T).
  constructor; rewrite ?R, ?A, ?S, ?T; assumption.
Qed.

Lemma sendSuccessMessage_spec c :
  isSucceeded (sendSuccessMessage model startId c) = true
  /\ raw (sendSuccessMessage model startId c)
     = raw c ++ (if isSucceeded c then [] else header)
  /\ streamingState (sendSuccessMessage model startId c) = streamingState c.
Proof.
  unfold sendSuccessMessage.
  destruct (isSucceeded c) eqn:E; simpl; [now rewrite app_nil_r | easy].
Qed.

Lemma sendSuccessMessage_framed c :
  framed c -> framed (sendSuccessMessage model startId c).
Proof.
  intros [Hs Hd Hk Ho Ht].
  destruct (sendSuccessMessage_spec c) as (S & R & St).
  unfold accumulators in *.
  destruct (isSucceeded c) eqn:E.
  - rewrite app_nil_r in R.
    constructor; unfold accumulators; rewrite ?S, ?R, ?St; assumption.
  - rewrite Hs in *. simpl in R.
    assert (Hq : starts_precede_deltas header).
    { apply (starts_precede_deltas_quiet [] header);
        [apply starts_precede_deltas_nil|].
      repeat constructor; now intros []. }
    constructor; unfold accumulators; rewrite ?S, ?R, ?St; try assumption.
    + exists []. now split.
    + intros i Hi. destruct (Ho i Hi) as [b []].
    + intros T. destruct (Ht T) as [b []].
Qed.

Lemma fold_tool_calls_framed toolCalls : forall c,
  framed c -> isSucceeded c = true ->
  framed (fold_left on_tool_call toolCalls c)
  /\ isSucceeded (fold_left on_tool_call toolCalls c) = true.
Proof.
  induction toolCalls as [|toolCall rest IH]; intros c F S; simpl; [easy|].
  apply IH; [now apply on_tool_call_framed|].
  now rewrite (proj1 (on_tool_call_flags c toolCall)).
Qed.

Lemma on_delta_framed c parsed :
  framed c -> isSucceeded c = true ->
  framed (on_delta c parsed) /\ isSucceeded (on_delta c parsed) = true.
Proof.
  intros F S. unfold on_delta.
  destruct (match sf_choices parsed with
            | choice :: _ => sc_delta choice
            | [] => None
            end) as [d|]; [|easy].
  destruct (sd_tool_calls d) as [toolCalls|].
  - now apply fold_tool_calls_framed.
  - destruct (truthy_str (sd_content d)).
    + destruct (on_content_spec c (or_empty (sd_content d))) as (R & A & I).
      split; [|now rewrite I]. eapply text_step_framed; eassumption.
    + destruct (truthy_str (sd_reasoning d)); [|easy].
      destruct (on_reasoning_spec c (or_empty (sd_reasoning d))) as (R & A & I).
      split; [|now rewrite I]. eapply text_step_framed; eassumption.
Qed.

(** Every parsed frame without an error field opens the stream if it is
    not open, and keeps the framing. *)
Lemma on_frame_framed c parsed :
  framed c ->
  framed (on_frame model startId c parsed)
  /\ isSucceeded (on_frame model startId c parsed) = true.
Proof.
  intros F. unfold on_frame. apply on_delta_framed.
  - now apply capture_usage_framed, sendSuccessMessage_framed.
  - rewrite (proj1 (proj2 (proj2 (capture_usage_spec _ parsed)))).
    apply sendSuccessMessage_spec.
Qed.

(** The keys whose blocks the sentinel closes, each with a
    [content_block_stop] that carries [parseInt] of the key. *)
Definition stop_keys (c : Conn) : list Z :=
  if encounteredToolCall (streamingState c)
  then for_in_keys (accumulators c)
  else if textBlockStarted (streamingState c) then [0%Z] else [].

Definition key_stop (idx : Z) : RawAction :=
  block_stop (key_index parseInt_exponent idx).




(** The token count of the final [message_delta]. *)
Definition final_tokens (c : Conn) : Z :=
  match usage (streamingState c) with
  | Some u => completion_tokens u
  | None =>
      Z.of_nat (split_count (accumulatedContent (streamingState c))
                + split_count (accumulatedReasoning (streamingState c)))
  end.

Definition final_reason (c : Conn) : AnthropicStopReason :=
  if encounteredToolCall (streamingState c) then tool_use else end_turn.

Definition closing (c : Conn) : list RawAction :=
  [sendSSE (message_delta (final_reason c) (final_tokens c));
   sendSSE message_stop; raw_end].

Lemma finalize_raw c :
  raw (finalize parseInt_exponent c)
  = raw c ++ map key_stop (stop_keys c) ++ closing c
  /\ isSucceeded (finalize parseInt_exponent c) = isSucceeded c.
Proof.
  unfold finalize, stop_keys, closing, final_reason, final_tokens, accumulators.
  cbn [raw emit isSucceeded]. split; [|reflexivity]. do 2 f_equal.
  destruct (encounteredToolCall _); [reflexivity|].
  now destruct (textBlockStarted _).
Qed.


Variable JSON_parse : string -> option ParsedLine.

(** What holds when a loop is left. *)
Definition exit_framed (e : Exit) : Prop :=
  match e with
  | Continue c => framed c
  | Throw c _ => framed c
  | Return c' => exists c, framed c /\ c' = finalize parseInt_exponent c
  end.

Lemma on_plain_framed c u choices :
  framed c -> exit_framed (on_plain model startId c u choices).
Proof.
  intros F. apply capture_usage_framed, sendSuccessMessage_framed, F.
Qed.

Lemma on_data_framed c dataStr :
  framed c ->
  exit_framed (on_data parseInt_exponent model startId JSON_parse c dataStr).
Proof.
  intros F. unfold on_data.
  destruct (String.eqb dataStr "[DONE]"); [now exists c|].
  destruct (JSON_parse dataStr) as [[|[err|] u choices|parsed]|];
    try exact F.
  - now apply on_plain_framed.
  - destruct (sf_error parsed); [exact F|].
    now apply on_frame_framed.
Qed.

Lemma for_lines_framed lines : forall c,
  framed c -> exit_framed (for_lines parseInt_exponent model startId
      JSON_parse c lines).
Proof.
  induction lines as [|line rest IH]; intros c F; simpl; [exact F|].
  destruct (String.eqb (trim line) EmptyString
            || negb (startsWith "data:" (trim line))); [now apply IH|].
  pose proof (on_data_framed c (strip_data_prefix (trim line)) F) as D.
  destruct (on_data parseInt_exponent model startId JSON_parse c _);
    [now apply IH | exact D..].
Qed.

Lemma read_loop_framed chunks : forall c,
  framed c -> exit_framed (read_loop parseInt_exponent model startId
      JSON_parse c chunks).
Proof.
  induction chunks as [|chunk rest IH]; intros c F; simpl; [exact F|].
  pose proof (for_lines_framed (split (ascii_of_nat 10) chunk) c F) as D.
  destruct (for_lines parseInt_exponent model startId JSON_parse c _);
    [now apply IH | exact D..].
Qed.

(** The shape of what a framed state has written. *)
Lemma framed_shape c :
  framed c ->
  exists head body,
    raw c = head ++ body
    /\ (head = [] \/ head = header)
    /\ (isSucceeded c = true -> head = header)
    /\ Forall is_content body.
Proof.
  intros [Hs _ _ _ _]. destruct (isSucceeded c).
  - destruct Hs as (body & E & Hc). exists header, body. auto.
  - exists [], []. rewrite Hs. repeat split; auto. discriminate.
Qed.




(** The data lines of a body: the lines that pass the [data:] filter,
    without their prefix. *)
Definition is_data_line (line : string) : bool :=
  negb (String.eqb (trim line) EmptyString
        || negb (startsWith "data:" (trim line))).

Definition data_lines (chunks : list string) : list string :=
  flat_map (fun chunk =>
              map (fun line => strip_data_prefix (trim line))
                  (filter is_data_line (split (ascii_of_nat 10) chunk)))
           chunks.

Lemma on_data_return c dataStr c' :
  on_data parseInt_exponent model startId JSON_parse c dataStr = Return c' ->
  dataStr = "[DONE]".
Proof.
  unfold on_data, on_plain. destruct (String.eqb dataStr "[DONE]") eqn:E.
  - intros _. now apply String.eqb_eq.
  - destruct (JSON_parse dataStr) as [[|[err|] u choices|parsed]|];
      try discriminate.
    destruct (sf_error parsed); discriminate.
Qed.

Lemma for_lines_return lines : forall c c',
  for_lines parseInt_exponent model startId JSON_parse c lines = Return c' ->
  In "[DONE]" (map (fun line => strip_data_prefix (trim line))
                   (filter is_data_line lines)).
Proof.
  induction lines as [|line rest IH]; intros c c'; simpl; [discriminate|].
  unfold is_data_line at 1.
  destruct (String.eqb (trim line) EmptyString
            || negb (startsWith "data:" (trim line))); simpl;
    [apply IH|].
  destruct (on_data parseInt_exponent model startId JSON_parse c _) eqn:D.
  - intros R. right. eapply IH, R.
  - intros _. left. eapply on_data_return, D.
  - discriminate.
Qed.

Lemma read_loop_return chunks : forall c c',
  read_loop parseInt_exponent model startId JSON_parse c chunks = Return c' ->
  In "[DONE]" (data_lines chunks).
Proof.
  induction chunks as [|chunk rest IH]; intros c c'; simpl; [discriminate|].
  destruct (for_lines parseInt_exponent model startId JSON_parse c _) eqn:F.
  - intros R. apply in_or_app. right. eapply IH, R.
  - intros _. apply in_or_app. left. eapply for_lines_return, F.
  - discriminate.
Qed.

End Framing.

End StreamingFacts.

(** ** The handler's streaming branch *)

Module ProxyFacts.
Import Streaming StreamingFacts Proxy.

(** A few frames, and [JSON.parse] on the texts that carry them. *)
Definition quoted (s : string) : string := dquote ++ s ++ dquote.

Definition delta_frame (d : StreamDelta) : StreamFrame :=
  {| sf_error := None; sf_usage := None;
     sf_choices := [ {| sc_delta := Some d |} ] |}.

(** [{"choices":[{"delta":{"content":"Hi"}}]}] *)
Definition hi_text : string :=
  "{" ++ quoted "choices" ++ ":[{" ++ quoted "delta" ++ ":{"
      ++ quoted "content" ++ ":" ++ quoted "Hi" ++ "}}]}".
Definition hi_frame : StreamFrame :=
  delta_frame {| sd_tool_calls := None; sd_content := Some "Hi";
                 sd_reasoning := None |}.

(** [{"choices":[{"delta":{"role":"assistant"}}]}]: no content, no
    reasoning, no tool call. *)
Definition role_text : string :=
  "{" ++ quoted "choices" ++ ":[{" ++ quoted "delta" ++ ":{"
      ++ quoted "role" ++ ":" ++ quoted "assistant" ++ "}}]}".
Definition role_frame : StreamFrame :=
  delta_frame {| sd_tool_calls := None; sd_content := None;
                 sd_reasoning := None |}.

(** [{"error":{"message":"overloaded"}}] *)
Definition error_text : string :=
  "{" ++ quoted "error" ++ ":{" ++ quoted "message" ++ ":"
      ++ quoted "overloaded" ++ "}}".
Definition error_frame : StreamFrame :=
  {| sf_error := Some {| error_message := "overloaded" |};
     sf_usage := None; sf_choices := [] |}.

Definition parse_sample (s : string) : option ParsedLine :=
  if String.eqb s hi_text then Some (parsed_frame hi_frame)
  else if String.eqb s role_text then Some (parsed_frame role_frame)
  else if String.eqb s error_text then Some (parsed_frame error_frame)
  else if String.eqb s "{}" then Some (parsed_plain None None js_undefined)
  else if String.eqb s "null" then Some parsed_null
  else None.

Definition sample_syntax_message (src : option string) : string :=
  "Unexpected token".

Definition sample_type_message (target : Nullish) (property : string)
  : string :=
  "Cannot read properties of "
  ++ match target with js_undefined => "undefined" | js_null => "null" end
  ++ " (reading '" ++ property ++ "')".

(** [parseInt] of a key such as [1e+21]. *)
Definition sample_exponent (idx : Z) : Z := 1.

Definition sample_id (n : nat) : string :=
  match n with O => "msg_a" | _ => "msg_b" end.

Definition streamed (st : Z) (chunks : list string) : FetchResponse :=
  {| status := st; body := Some chunks |}.

(** A body that holds the sentinel only. *)
Definition done_line : string := "data: [DONE]" ++ newline ++ newline.
Definition hi_line : string := "data: " ++ hi_text ++ newline ++ newline.


(** A body with one content frame and no sentinel. *)
Definition hi_then_eof : list string := [hi_line].

(** A body with one content frame, then the sentinel. *)
Definition hi_then_done : list string := [hi_line; done_line].

Section Stream.
Variable parse_frame : string -> option ParsedLine.
Variable parseInt_exponent : Z -> Z.
Variable syntax_message : option string -> string.
Variable type_message : Nullish -> string -> string.
Variable random_id : nat -> string.
Variable model : string.

Definition run (chunks : list string) : Exit :=
  read_loop parseInt_exponent model (random_id 0) parse_frame
    (initialConn (random_id 1)) chunks.

Definition output (st : Z) (chunks : list string) : list RawAction * Reply :=
  stream parse_frame parseInt_exponent syntax_message type_message random_id
    model (streamed st chunks).

Lemma run_framed chunks :
  exit_framed parseInt_exponent model (random_id 0) (run chunks).
Proof. apply read_loop_framed, framed_initial. Qed.


End Stream.


(** A text block followed by a tool call of index 1: the sentinel
    closes block 1 and leaves block 0 without a stop. *)
Definition tool_frame (toolCall : OpenAIToolCall) : StreamFrame :=
  delta_frame {| sd_tool_calls := Some [toolCall]; sd_content := None;
                 sd_reasoning := None |}.

Example text_block_left_open :
  raw (finalize sample_exponent
         (fold_left (on_frame "m" "msg_a")
            [hi_frame;
             tool_frame (tool_call_delta (Some 1%Z) (Some "call_1")
                           (Some "search") (Some "{}"))]
            (initialConn "msg_b")))
  = [writeHead 200; sendSSE (message_start "msg_a" "m"); sendSSE ping;
     block_start 0 start_text;
     sendSSE (content_block_delta 0 (text_delta "Hi"));
     block_start 1 (start_tool_use (Some "call_1") (Some "search"));
     json_delta 1 "{}";
     block_stop 1;
     sendSSE (message_delta tool_use 2); sendSSE message_stop; raw_end].
Proof. reflexivity. Qed.

(** The tool-call scenario of the specification: one tool call at
    index 0 whose arguments grow, then the sentinel. *)
Example weather_scenario :
  raw (finalize sample_exponent
         (fold_left (on_frame "m" "msg_a")
            (map tool_frame [weather_1; weather_2; weather_3])
            (initialConn "msg_b")))
  = [writeHead 200; sendSSE (message_start "msg_a" "m"); sendSSE ping;
     block_start 0 (start_tool_use (Some "call_1") (Some "get_weather"));
     json_delta 0 "{";
     json_delta 0 (dquote ++ "a" ++ dquote ++ ":1");
     json_delta 0 "}";
     block_stop 0;
     sendSSE (message_delta tool_use 2); sendSSE message_stop; raw_end].
Proof. reflexivity. Qed.

(** *** Finalization on the sentinel (C1) *)



(** A tool call of index 1 and one of index 10^21: the keys are [1]
    and [1e+21], [parseInt] gives 1 for both, and the sentinel writes
    the stop of block 1 twice and none for the other block. *)
Example exponent_key_repeats_stop :
  raw (finalize sample_exponent
         (fold_left (on_frame "m" "msg_a")
            [tool_frame (tool_call_delta (Some 1%Z) (Some "call_1")
                           (Some "search") (Some "{}"));
             tool_frame (tool_call_delta (Some 1000000000000000000000%Z)
                           (Some "call_2") (Some "fetch") (Some "{}"))]
            (initialConn "msg_b")))
  = [writeHead 200; sendSSE (message_start "msg_a" "m"); sendSSE ping;
     block_start 1 (start_tool_use (Some "call_1") (Some "search"));
     json_delta 1 "{}";
     block_start 1000000000000000000000
       (start_tool_use (Some "call_2") (Some "fetch"));
     json_delta 1000000000000000000000 "{}";
     block_stop 1; block_stop 1;
     sendSSE (message_delta tool_use 2); sendSSE message_stop; raw_end].
Proof. reflexivity. Qed.


(** *** Opening the stream (C4) *)

Definition error_line : string := "data: " ++ error_text ++ newline ++ newline.




(** The line [data: {}]: it parses and has no error field, so the
    header is written; it has no [choices], so the handler throws: a
    partial stream, left without an end, and a 500 reply. *)
Example empty_object_opens_then_throws :
  output parse_sample sample_exponent sample_syntax_message
    sample_type_message sample_id "m" 200
    [("data: {}" ++ newline ++ newline)%string]
  = ([writeHead 200; sendSSE (message_start "msg_a" "m"); sendSSE ping],
     {| reply_code := 500;
        reply_payload :=
          payload_json
            (error_object
               "Cannot read properties of undefined (reading '0')") |}).
Proof. reflexivity. Qed.

(** The line [data: null]: reading [parsed.error] throws before
    anything is written. *)
Example null_line_is_clean :
  output parse_sample sample_exponent sample_syntax_message
    sample_type_message sample_id "m" 200
    [("data: null" ++ newline ++ newline)%string]
  = ([], {| reply_code := 500;
            reply_payload :=
              payload_json
                (error_object
                   "Cannot read properties of null (reading 'error')") |}).
Proof. reflexivity. Qed.

(** An error frame on the first line: nothing written, a 500 reply. *)
Example error_first_is_clean :
  output parse_sample sample_exponent sample_syntax_message
      sample_type_message sample_id "m" 200
    [error_line; hi_line]
  = ([], {| reply_code := 500;
            reply_payload := payload_json (error_object "overloaded") |}).
Proof. reflexivity. Qed.

(** *** End of input without the sentinel (C7) *)

(** C7, as the specification states it, fails: a body that ends after
    a content frame, with no sentinel, is answered like a finished
    stream: the output is ended, the status stays 200 and no error is
    returned. *)
Lemma eof_without_sentinel_is_no_error :
  ~ In "[DONE]" (data_lines hi_then_eof)
  /\ output parse_sample sample_exponent sample_syntax_message
      sample_type_message sample_id "m" 200 hi_then_eof
     = ([writeHead 200; sendSSE (message_start "msg_a" "m"); sendSSE ping;
         block_start 0 start_text;
         sendSSE (content_block_delta 0 (text_delta "Hi"));
         raw_end],
        {| reply_code := 200; reply_payload := payload_void |}).
Proof.
  split; [|reflexivity].
  intros [H|[]]. discriminate H.
Qed.

(** No [content_block_stop], [message_delta] or [message_stop]. *)
Definition unfinished (tr : list RawAction) : Prop :=
  (forall idx, ~ In (sendSSE (content_block_stop idx)) tr)
  /\ (forall reason tokens, ~ In (sendSSE (message_delta reason tokens)) tr)
  /\ ~ In (sendSSE message_stop) tr.

Lemma framed_unfinished model startId c :
  framed model startId c -> unfinished (raw c).
Proof.
  intros F.
  destruct (framed_shape _ _ _ F) as (head & body & E & Hh & _ & Hc).
  assert (G : forall a, In a (raw c) -> In a (header model startId)
                                         \/ is_content a).
  { intros a H. rewrite E in H. apply in_app_or in H as [H|H].
    - destruct Hh as [->| ->]; [destruct H | now left].
    - right. rewrite Forall_forall in Hc. now apply Hc. }
  repeat split.
  - intros idx H. apply G in H as [[H|[H|[H|[]]]]|H];
      [discriminate.. | exact H].
  - intros reason tokens H. apply G in H as [[H|[H|[H|[]]]]|H];
      [discriminate.. | exact H].
  - intros H. apply G in H as [[H|[H|[H|[]]]]|H];
      [discriminate.. | exact H].
Qed.

(** C7, amended: when the body ends and no data line was the sentinel,
    either a line threw (and the handler answers 500, the output left
    as it was), or the reader loop falls through: the output is ended
    right after what the frames wrote, the status stays 200 and
    nothing is returned.  In both cases no [content_block_stop], no
    [message_delta] and no [message_stop] is written. *)
Theorem eof_without_sentinel_ends_quietly
        (parse_frame : string -> option ParsedLine)
        (parseInt_exponent : Z -> Z)
        (syntax_message : option string -> string)
        (type_message : Nullish -> string -> string)
        (random_id : nat -> string) (model : string)
        (st : Z) (chunks : list string) :
  ~ In "[DONE]" (data_lines chunks) ->
  (exists c,
      run parse_frame parseInt_exponent random_id model chunks = Continue c
      /\ output parse_frame parseInt_exponent syntax_message type_message
           random_id model st chunks
         = (raw c ++ [raw_end],
            {| reply_code := 200; reply_payload := payload_void |})
      /\ (forall idx, ~ In (sendSSE (content_block_stop idx)) (raw c))
      /\ ~ In (sendSSE message_stop) (raw c)
      /\ forall reason tokens,
           ~ In (sendSSE (message_delta reason tokens)) (raw c))
  \/ (exists c e,
         run parse_frame parseInt_exponent random_id model chunks = Throw c e
         /\ output parse_frame parseInt_exponent syntax_message type_message
              random_id model st chunks
            = (raw c, on_throw syntax_message type_message e)
         /\ unfinished (raw c)).
Proof.
  intros Hno.
  pose proof (run_framed parse_frame parseInt_exponent random_id model chunks)
    as F.
  unfold output, stream, streamed. simpl. unfold run in *.
  destruct (read_loop parseInt_exponent model (random_id 0) parse_frame
              (initialConn (random_id 1)) chunks) as [c|c'|c e] eqn:R.
  - left. exists c. simpl in F.
    destruct (framed_unfinished _ _ _ F) as (U1 & U2 & U3).
    repeat split; assumption.
  - exfalso. apply Hno. eapply read_loop_return, R.
  - right. exists c, e. simpl in F.
    repeat split; try apply (framed_unfinished _ _ _ F).
Qed.

Lemma eof_without_sentinel_ends_quietly_witness :
  ~ In "[DONE]" (data_lines hi_then_eof)
  /\ ((exists c,
         run parse_sample sample_exponent sample_id "m" hi_then_eof
         = Continue c
         /\ output parse_sample sample_exponent sample_syntax_message
              sample_type_message sample_id "m" 200 hi_then_eof
            = (raw c ++ [raw_end],
               {| reply_code := 200; reply_payload := payload_void |})
         /\ (forall idx, ~ In (sendSSE (content_block_stop idx)) (raw c))
         /\ ~ In (sendSSE message_stop) (raw c)
         /\ forall reason tokens,
              ~ In (sendSSE (message_delta reason tokens)) (raw c))
      \/ (exists c e,
            run parse_sample sample_exponent sample_id "m" hi_then_eof
            = Throw c e
            /\ output parse_sample sample_exponent sample_syntax_message
                 sample_type_message sample_id "m" 200 hi_then_eof
               = (raw c, on_throw sample_syntax_message sample_type_message e)
            /\ unfinished (raw c))).
Proof.
  assert (H : ~ In "[DONE]" (data_lines hi_then_eof))
    by (intros [H|[]]; discriminate H).
  split; [exact H|].
  exact (eof_without_sentinel_ends_quietly parse_sample sample_exponent
           sample_syntax_message sample_type_message sample_id "m" 200
           hi_then_eof H).
Defined.

End ProxyFacts.

(** ** The handler's other branches *)

Module HandlerFacts.
Import Proxy JsStringFacts.

Definition hello_request (text : string) : AnthropicRequest :=
  {| ar_system := None;
     ar_messages :=
       Some [ {| am_role := "user"; am_content := content_string text |} ];
     ar_tools := None;
     ar_max_tokens := None;
     ar_temperature := None;
     ar_stream := None;
     ar_thinking := None |}.

Definition sample_config : ProxyConfig :=
  {| models_reasoning := "reasoner"; models_completion := "completer" |}.

Definition no_stringify (j : json) : string := EmptyString.
Definition no_response (s : string) : option NonStream.ParsedResponse :=
  None.
Definition no_value (s : string) : option json := None.

(** *** Backend failure (C6) *)

Definition not_found : FetchResponse :=
  {| status := 404; body := Some ["model not found"] |}.

(** C6, as the specification states it, fails: the reply to a backend
    failure is not the backend's body but an object whose [error]
    field holds it. *)
Lemma backend_failure_is_wrapped :
  let reply :=
    snd (handler [] sample_config no_stringify no_response no_value
           ProxyFacts.parse_sample ProxyFacts.sample_exponent
               ProxyFacts.sample_syntax_message ProxyFacts.sample_type_message
           ProxyFacts.sample_id (hello_request "Hello") not_found) in
  reply_payload reply = payload_json (JObj [("error", JStr "model not found")])
  /\ reply_payload reply <> payload_json (JStr (text not_found)).
Proof. cbv zeta. split; [reflexivity | discriminate]. Qed.

(** C6, amended: when the backend's status is outside 200-299 the
    handler writes nothing to the stream and answers with the backend's
    status and the object [{error: body}], where [body] is the
    backend's body text, unparsed and unchanged. *)
Theorem backend_failure_keeps_status_and_text
        (EXCLUDED_TOOLS : list string) (config : ProxyConfig)
        (JSON_stringify : json -> string)
        (parse_response : string -> option NonStream.ParsedResponse)
        (parse_value : string -> option json)
        (parse_frame : string -> option Streaming.ParsedLine)
        (parseInt_exponent : Z -> Z)
        (syntax_message : option string -> string)
        (type_message : Nullish -> string -> string)
        (random_id : nat -> string)
        (payload : AnthropicRequest) (resp : FetchResponse) :
  ok resp = false ->
  handler EXCLUDED_TOOLS config JSON_stringify parse_response parse_value
    parse_frame parseInt_exponent syntax_message type_message random_id
        payload resp
  = ([], {| reply_code := status resp;
            reply_payload :=
              payload_json (JObj [("error", JStr (text resp))]) |}).
Proof. intros H. unfold handler. now rewrite H. Qed.

Lemma backend_failure_keeps_status_and_text_witness :
  ok not_found = false
  /\ handler [] sample_config no_stringify no_response no_value
       ProxyFacts.parse_sample ProxyFacts.sample_exponent
           ProxyFacts.sample_syntax_message ProxyFacts.sample_type_message
       ProxyFacts.sample_id (hello_request "Hello") not_found
     = ([], {| reply_code := 404;
               reply_payload :=
                 payload_json (JObj [("error", JStr "model not found")]) |}).
Proof.
  split; [reflexivity|].
  apply (backend_failure_keeps_status_and_text [] sample_config no_stringify
           no_response no_value ProxyFacts.parse_sample
               ProxyFacts.sample_exponent
           ProxyFacts.sample_syntax_message
           ProxyFacts.sample_type_message ProxyFacts.sample_id
           (hello_request "Hello") not_found).
  reflexivity.
Defined.

(** *** A single user text message (C9) *)

(** C9, as the specification states it, fails for the empty text: the
    message has no content and no tool call and is not pushed. *)
Lemma empty_text_message_is_dropped :
  oq_messages (Request.openaiPayload [] sample_config no_stringify
                 (hello_request EmptyString))
  = [].
Proof. reflexivity. Qed.

(** C9, amended: a request whose only message is a user message with a
    non-empty text string, with no system entries, is translated to a
    request with the one message [{role: user, content: text}] (and
    without tools if it has none). *)
Theorem single_user_text_message
        (EXCLUDED_TOOLS : list string) (config : ProxyConfig)
        (JSON_stringify : json -> string)
        (payload : AnthropicRequest) (text : string) :
  ar_messages payload
  = Some [ {| am_role := "user"; am_content := content_string text |} ] ->
  ar_system payload = None \/ ar_system payload = Some (system_array []) ->
  text <> EmptyString ->
  oq_messages (Request.openaiPayload EXCLUDED_TOOLS config JSON_stringify payload)
  = [ {| om_role := "user"; om_content := Some text;
         om_tool_calls := None; om_tool_call_id := None |} ]
  /\ (ar_tools payload = None \/ ar_tools payload = Some [] ->
      oq_tools (Request.openaiPayload EXCLUDED_TOOLS config JSON_stringify
                  payload) = None).
Proof.
  intros Hm Hs Ht. split.
  - unfold Request.openaiPayload. cbn [oq_messages].
    unfold Request.translate_messages. rewrite Hm.
    assert (S : Request.system_messages payload = [])
      by (unfold Request.system_messages; destruct Hs as [->| ->]; reflexivity).
    rewrite S. cbn [flat_map app]. unfold Request.translate_message. simpl.
    apply String.eqb_neq in Ht. simpl. rewrite Ht. simpl. rewrite Ht.
    reflexivity.
  - intros Hn. unfold Request.openaiPayload, Request.translate_tools. simpl.
    destruct Hn as [->| ->]; reflexivity.
Qed.

Lemma single_user_text_message_witness :
  oq_messages (Request.openaiPayload [] sample_config no_stringify
                 (hello_request "Hello"))
  = [ {| om_role := "user"; om_content := Some "Hello";
         om_tool_calls := None; om_tool_call_id := None |} ]
  /\ (ar_tools (hello_request "Hello") = None
      \/ ar_tools (hello_request "Hello") = Some [] ->
      oq_tools (Request.openaiPayload [] sample_config no_stringify
                  (hello_request "Hello")) = None).
Proof.
  apply (single_user_text_message [] sample_config no_stringify
           (hello_request "Hello") "Hello").
  - reflexivity.
  - left. reflexivity.
  - discriminate.
Defined.

End HandlerFacts.

(** ** NonStreamResponseTranslator *)

Module NonStreamFacts.
Import NonStream JsStringFacts.

(** The number of pieces a text falls into when cut at every single
    space: one more than the number of spaces; nothing for no text. *)
Definition pieces (content : option string) : nat :=
  match content with
  | Some text => S (occurrences " "%char text)
  | None => 0
  end.

Lemma estimate_pieces content : estimate content = pieces content.
Proof. destruct content; [apply split_count_spaces | reflexivity]. Qed.

Lemma estimate_messages_sum messages :
  estimate_messages messages
  = list_sum (map (fun msg => pieces (om_content msg)) messages).
Proof.
  unfold estimate_messages.
  assert (G : forall acc,
             fold_left (fun a msg => (a + estimate (om_content msg))%nat)
                       messages acc
             = (acc + list_sum (map (fun msg => pieces (om_content msg))
                                    messages))%nat).
  { induction messages as [|msg rest IH]; intros acc; simpl; [lia|].
    rewrite IH, estimate_pieces. lia. }
  apply G.
Qed.

(** *** Texts of words separated by single spaces *)

(** A word: not empty, without white space. *)
Definition plain_word (w : string) : Prop :=
  w <> EmptyString
  /\ forall c, In c (list_ascii_of_string w) -> is_space c = false.

Lemma occurrences_append c a b :
  occurrences c (a ++ b)%string = (occurrences c a + occurrences c b)%nat.
Proof. induction a as [|d a IH]; simpl; [reflexivity | rewrite IH; lia]. Qed.

Lemma plain_word_no_space w :
  (forall c, In c (list_ascii_of_string w) -> is_space c = false) ->
  occurrences " "%char w = 0%nat.
Proof.
  induction w as [|d w IH]; simpl; intros H; [reflexivity|].
  rewrite IH by auto.
  destruct (Ascii.eqb d " "%char) eqn:E; [|reflexivity].
  apply Ascii.eqb_eq in E. subst d.
  specialize (H " "%char (or_introl eq_refl)). discriminate.
Qed.

Lemma split_count_join ws :
  ws <> [] -> Forall plain_word ws ->
  split_count (join " " ws) = List.length ws.
Proof.
  intros Hne Hall. rewrite split_count_spaces.
  induction Hall as [|w rest [_ Hw] Hrest IH]; [contradiction|].
  destruct rest as [|w' rest'].
  - simpl. now rewrite plain_word_no_space.
  - change (join " " (w :: w' :: rest'))
      with (w ++ " " ++ join " " (w' :: rest'))%string.
    rewrite !occurrences_append, plain_word_no_space by assumption.
    simpl occurrences at 1. simpl List.length.
    specialize (IH ltac:(discriminate)). simpl List.length in IH. lia.
Qed.

Lemma words_from_inside w s :
  (forall c, In c (list_ascii_of_string w) -> is_space c = false) ->
  words_from true (w ++ s) = words_from true s.
Proof.
  induction w as [|d w IH]; simpl; intros H; [reflexivity|].
  rewrite (H d (or_introl eq_refl)). simpl. apply IH. auto.
Qed.

Lemma words_from_word w s :
  plain_word w -> words_from false (w ++ s) = S (words_from true s).
Proof.
  intros [Hne H]. destruct w as [|d w]; [contradiction|]. simpl.
  rewrite (H d (or_introl eq_refl)). simpl in *. f_equal.
  apply words_from_inside. auto.
Qed.

Lemma word_count_join ws :
  Forall plain_word ws -> word_count (join " " ws) = List.length ws.
Proof.
  unfold word_count.
  induction 1 as [|w rest Hw Hrest IH]; [reflexivity|].
  destruct rest as [|w' rest'].
  - simpl join. rewrite <- (append_empty_r w) at 1.
    now rewrite words_from_word.
  - change (join " " (w :: w' :: rest'))
      with (w ++ " " ++ join " " (w' :: rest'))%string.
    rewrite words_from_word by assumption. simpl List.length in *.
    rewrite <- IH. reflexivity.
Qed.

(** For words separated by single spaces the estimate is the number of
    words. *)
Lemma estimate_of_spaced_words ws :
  ws <> [] -> Forall plain_word ws ->
  split_count (join " " ws) = word_count (join " " ws).
Proof.
  intros Hne Hall. now rewrite split_count_join, word_count_join.
Qed.

(** *** Token usage (C8) *)

Definition reply_with (text : option string) : OpenAIResponse :=
  {| or_id := Some "chatcmpl-1";
     or_error := None;
     or_choices :=
       [ {| oc_message := {| om_role := "assistant"; om_content := text;
                             om_tool_calls := None; om_tool_call_id := None |};
            oc_finish_reason := Some "stop" |} ];
     or_usage := None |}.

Definition asked : list OpenAIMessage :=
  [ {| om_role := "user"; om_content := Some "Hello there";
       om_tool_calls := None; om_tool_call_id := None |} ].

Definition reported (result : exn + AnthropicResponse) : option AnthropicUsage :=
  match result with
  | inr response => Some (rs_usage response)
  | inl _ => None
  end.

(** C8, as the specification states it, fails in the fallback: the
    estimate cuts at single spaces only and counts empty pieces, so two
    words two spaces apart count 3 and an empty text counts 1. *)
Lemma fallback_is_not_the_word_count :
  reported (translate HandlerFacts.no_value "msg_r" "m" asked
              (reply_with (Some "two  words")))
  = Some {| input_tokens := 2; output_tokens := 3 |}
  /\ word_count "two  words" = 2%nat
  /\ reported (translate HandlerFacts.no_value "msg_r" "m" asked
                 (reply_with (Some EmptyString)))
     = Some {| input_tokens := 2; output_tokens := 1 |}
  /\ word_count EmptyString = 0%nat.
Proof. repeat split. Qed.

(** C8, amended: in a translated response the usage is the backend's
    [prompt_tokens] and [completion_tokens] when it supplied a usage
    object; otherwise [input_tokens] is the sum, over the translated
    outbound messages, of the number of pieces of each content cut at
    single spaces (one more than its number of spaces; 0 without
    content), and [output_tokens] is that number for the content of
    the first choice. *)
Theorem usage_is_backend_or_space_pieces
        (JSON_parse : string -> option json) (random_id model : string)
        (messages : list OpenAIMessage) (data : OpenAIResponse)
        (response : AnthropicResponse) :
  translate JSON_parse random_id model messages data = inr response ->
  exists choice others,
    or_choices data = choice :: others
    /\ rs_usage response
       = match or_usage data with
         | Some u =>
             {| input_tokens := prompt_tokens u;
                output_tokens := completion_tokens u |}
         | None =>
             {| input_tokens :=
                  Z.of_nat (list_sum (map (fun msg => pieces (om_content msg))
                                          messages));
                output_tokens :=
                  Z.of_nat (pieces (om_content (oc_message choice))) |}
         end.
Proof.
  unfold translate. destruct (or_error data); [discriminate|].
  destruct (or_choices data) as [|choice others]; [discriminate|].
  destruct (tool_use_blocks JSON_parse _); [discriminate|].
  intros E. injection E as <-. exists choice, others. split; [reflexivity|].
  unfold usage_of. simpl.
  destruct (or_usage data); [reflexivity|].
  now rewrite estimate_messages_sum, estimate_pieces.
Qed.

Lemma usage_is_backend_or_space_pieces_witness :
  exists response,
    translate HandlerFacts.no_value "msg_r" "m" asked
      (reply_with (Some "Hi there friend")) = inr response
    /\ rs_usage response = {| input_tokens := 2; output_tokens := 3 |}.
Proof.
  eexists. split; [reflexivity|].
  destruct (usage_is_backend_or_space_pieces HandlerFacts.no_value "msg_r" "m"
              asked (reply_with (Some "Hi there friend")) _ eq_refl)
    as (choice & others & E & U).
  injection E as <- <-. exact U.
Defined.

(** The translation succeeds on a response without an error field,
    with a first choice and with tool-call arguments that all parse. *)
Lemma translate_returns
      (JSON_parse : string -> option json) (random_id model : string)
      (messages : list OpenAIMessage) (data : OpenAIResponse)
      (choice : OpenAIChoice) (others : list OpenAIChoice) :
  or_error data = None ->
  or_choices data = choice :: others ->
  om_tool_calls (oc_message choice) = None ->
  exists response,
    translate JSON_parse random_id model messages data = inr response.
Proof.
  intros He Hc Ht. unfold translate. rewrite He, Hc, Ht. simpl.
  eexists. reflexivity.
Qed.

End NonStreamFacts.

(* ================================================================== *)
(** * Further properties of the handler *)
(* ================================================================== *)

(** ** RequestTranslator: tools, messages, system entries *)

Module RequestFacts.
Import Request.

Lemma existsb_eqb_In (name : string) (names : list string) :
  existsb (String.eqb name) names = true <-> In name names.
Proof.
  rewrite existsb_exists. split.
  - intros (x & Hx & E). apply String.eqb_eq in E. now subst.
  - intros H. exists name. split; [assumption | apply String.eqb_refl].
Qed.

Lemma map_filter_comm {A B : Type} (f : A -> B) (p : B -> bool) (l : list A) :
  map f (filter (fun a => p (f a)) l) = filter p (map f l).
Proof.
  induction l as [|a l IH]; simpl; [reflexivity|].
  destruct (p (f a)); simpl; now rewrite IH.
Qed.

(** X1: the names of the tools sent to the backend are the names of
    the inbound tools that are not in the exclusion list, in the
    inbound order; no excluded name is ever sent. *)
Theorem excluded_tools_never_forwarded
        (EXCLUDED_TOOLS : list string) (payload : AnthropicRequest) :
  map (fun tool => fd_name (ot_function tool))
      (translate_tools EXCLUDED_TOOLS payload)
  = filter (fun name => negb (existsb (String.eqb name) EXCLUDED_TOOLS))
           (map at_name
                (match ar_tools payload with Some ts => ts | None => [] end))
  /\ forall tool,
       In tool (translate_tools EXCLUDED_TOOLS payload) ->
       ~ In (fd_name (ot_function tool)) EXCLUDED_TOOLS.
Proof.
  assert (E : map (fun tool => fd_name (ot_function tool))
                  (translate_tools EXCLUDED_TOOLS payload)
              = filter (fun name =>
                          negb (existsb (String.eqb name) EXCLUDED_TOOLS))
                       (map at_name
                            (match ar_tools payload with
                             | Some ts => ts
                             | None => []
                             end))).
  { unfold translate_tools. rewrite map_map. simpl.
    apply (map_filter_comm at_name
             (fun name => negb (existsb (String.eqb name) EXCLUDED_TOOLS))). }
  split; [exact E|].
  intros tool Ht Hex.
  apply (in_map (fun tool => fd_name (ot_function tool))) in Ht.
  rewrite E in Ht. apply filter_In in Ht as [_ Hn].
  apply existsb_eqb_In in Hex. rewrite Hex in Hn. discriminate.
Qed.

(** The content items of an inbound message: none for a text. *)
Definition items_of (msg : AnthropicMessage) : list AnthropicContent :=
  match am_content msg with
  | content_array items => items
  | content_string _ => []
  end.

(** X2: every message that the translation of one inbound message
    pushes is either the message itself, with the inbound role and a
    non-empty content or a non-empty list of tool calls, or a message
    of role [tool] made from one of its [tool_result] items, carrying
    that item's [tool_use_id] and its text (or else its content). *)
Theorem pushed_message_has_content_or_calls
        (JSON_stringify : json -> string)
        (msg : AnthropicMessage) (m : OpenAIMessage) :
  In m (translate_message JSON_stringify msg) ->
  (om_role m = am_role msg
   /\ om_tool_call_id m = None
   /\ (truthy_str (om_content m) = true
       \/ exists calls, om_tool_calls m = Some calls /\ calls <> []))
  \/ (exists item,
         In item (items_of msg)
         /\ has_type "tool_result" item = true
         /\ om_role m = "tool"
         /\ om_tool_calls m = None
         /\ om_tool_call_id m = ac_tool_use_id item
         /\ om_content m = or_str (ac_text item) (ac_content item)).
Proof.
  unfold translate_message. fold (items_of msg). intros H.
  apply in_app_or in H as [H|H].
  - left.
    set (normalized := normalizeContent _) in *.
    set (calls := map (tool_call_of JSON_stringify) _) in *.
    destruct (truthy_str (if truthy_str normalized then normalized else None)
              || match (if (0 <? List.length calls)%nat then Some calls else None)
                 with Some _ => true | None => false end) eqn:E;
      [|destruct H].
    destruct H as [<-|[]]. simpl. repeat split.
    apply orb_prop in E as [E|E]; [now left|]. right.
    destruct calls as [|c0 calls']; simpl in *; [discriminate|].
    eexists. split; [reflexivity | discriminate].
  - right. apply in_map_iff in H as (item & <- & Hi).
    apply filter_In in Hi as [Hi Ht]. exists item. now repeat split.
Qed.

(** X3: for a message whose content is an array, the text of the array
    is not forwarded: the translation is one message without content
    holding one tool call per [tool_use] item, in order (no message at
    all when there is none), followed by one [tool] message per
    [tool_result] item, in order. *)
Theorem array_content_shape
        (JSON_stringify : json -> string)
        (role : string) (items : list AnthropicContent) :
  translate_message JSON_stringify
    {| am_role := role; am_content := content_array items |}
  = match filter (has_type "tool_use") items with
    | [] => []
    | uses =>
        [ {| om_role := role; om_content := None;
             om_tool_calls := Some (map (tool_call_of JSON_stringify) uses);
             om_tool_call_id := None |} ]
    end
    ++ map tool_message (filter (has_type "tool_result") items).
Proof.
  unfold translate_message. simpl.
  now destruct (filter (has_type "tool_use") items).
Qed.

(** X4: the system messages come first; each has role [system] and a
    non-empty content, there is at most one per system entry, and a
    system prompt given as a plain string yields none. *)
Theorem system_entries_shape
        (JSON_stringify : json -> string) (payload : AnthropicRequest) :
  (exists rest,
      translate_messages JSON_stringify payload
      = system_messages payload ++ rest)
  /\ Forall (fun m => om_role m = "system"
                      /\ truthy_str (om_content m) = true
                      /\ om_tool_calls m = None
                      /\ om_tool_call_id m = None)
            (system_messages payload)
  /\ (forall entries,
         ar_system payload = Some (system_array entries) ->
         (List.length (system_messages payload) <= List.length entries)%nat)
  /\ (forall s,
         ar_system payload = Some (system_string s) ->
         system_messages payload = []).
Proof.
  split; [eexists; reflexivity|]. unfold system_messages.
  destruct (ar_system payload) as [[s|entries]|]; simpl.
  - repeat split; [apply Forall_nil | discriminate].
  - repeat split; [| | discriminate].
    + induction entries as [|e rest IH]; simpl; [constructor|].
      apply Forall_app. split; [|exact IH].
      destruct (negb _) eqn:E; repeat constructor. exact E.
    + intros ? [= <-].
      induction entries as [|e rest IH]; simpl; [lia|].
      rewrite length_app. destruct (negb _); simpl; lia.
  - repeat split; [apply Forall_nil | discriminate].
Qed.

(** An assistant turn that calls a tool and a user turn that answers. *)
Definition use_item : AnthropicContent :=
  {| ac_type := Some "tool_use"; ac_text := None; ac_content := None;
     ac_id := Some "toolu_1"; ac_name := Some "search";
     ac_input := Some (JObj [("q", JStr "rocq")]); ac_tool_use_id := None |}.

Definition result_item : AnthropicContent :=
  {| ac_type := Some "tool_result"; ac_text := None;
     ac_content := Some "3 hits"; ac_id := None; ac_name := None;
     ac_input := None; ac_tool_use_id := Some "toolu_1" |}.

Definition text_item : AnthropicContent :=
  {| ac_type := Some "text"; ac_text := Some "Here you are"; ac_content := None;
     ac_id := None; ac_name := None; ac_input := None;
     ac_tool_use_id := None |}.

Definition answer_message : AnthropicMessage :=
  {| am_role := "user";
     am_content := content_array [text_item; result_item] |}.

Definition answer_tool_message : OpenAIMessage :=
  {| om_role := "tool"; om_content := Some "3 hits"; om_tool_calls := None;
     om_tool_call_id := Some "toolu_1" |}.

Lemma pushed_message_has_content_or_calls_witness :
  In answer_tool_message
     (translate_message HandlerFacts.no_stringify answer_message)
  /\ ((om_role answer_tool_message = am_role answer_message
       /\ om_tool_call_id answer_tool_message = None
       /\ (truthy_str (om_content answer_tool_message) = true
           \/ exists calls,
                om_tool_calls answer_tool_message = Some calls /\ calls <> []))
      \/ (exists item,
            In item (items_of answer_message)
            /\ has_type "tool_result" item = true
            /\ om_role answer_tool_message = "tool"
            /\ om_tool_calls answer_tool_message = None
            /\ om_tool_call_id answer_tool_message = ac_tool_use_id item
            /\ om_content answer_tool_message
               = or_str (ac_text item) (ac_content item))).
Proof.
  assert (H : In answer_tool_message
                (translate_message HandlerFacts.no_stringify answer_message))
    by (left; reflexivity).
  split; [exact H|].
  exact (pushed_message_has_content_or_calls HandlerFacts.no_stringify
           answer_message answer_tool_message H).
Defined.

(** The text item of the answer is lost; the tool result is kept. *)
Example answer_translation :
  translate_message HandlerFacts.no_stringify answer_message
  = [answer_tool_message].
Proof. reflexivity. Qed.

End RequestFacts.

(** ** NonStreamResponseTranslator: failures, content, ids *)

Module NonStreamMore.
Import NonStream JsStringFacts.

(** [JSON.parse(toolCall.function.arguments)]: [None] when it throws. *)
Definition parsed_arguments (JSON_parse : string -> option json)
           (toolCall : OpenAIToolCall) : option json :=
  match fn_arguments (tc_function toolCall) with
  | Some text => JSON_parse text
  | None => None
  end.

Definition tool_use_block (JSON_parse : string -> option json)
           (toolCall : OpenAIToolCall) : option ResponseBlock :=
  option_map (response_tool_use (tc_id toolCall)
                (fn_name (tc_function toolCall)))
             (parsed_arguments JSON_parse toolCall).

Definition calls_of (choice : OpenAIChoice) : list OpenAIToolCall :=
  match om_tool_calls (oc_message choice) with
  | Some calls => calls
  | None => []
  end.

Lemma tool_use_blocks_inr JSON_parse toolCalls blocks :
  tool_use_blocks JSON_parse toolCalls = inr blocks ->
  map Some blocks = map (tool_use_block JSON_parse) toolCalls.
Proof.
  revert blocks. induction toolCalls as [|t rest IH]; simpl; intros blocks.
  - now intros [= <-].
  - unfold tool_use_block at 1, parsed_arguments.
    destruct (match fn_arguments (tc_function t) with
              | Some text => JSON_parse text
              | None => None
              end) as [input|]; [|discriminate].
    destruct (tool_use_blocks JSON_parse rest) as [e|bs]; [discriminate|].
    intros [= <-]. simpl. now rewrite (IH bs eq_refl).
Qed.




(** X6: a translated response always starts with one text block
    holding the message content (empty when the backend gave none),
    followed by one [tool_use] block per tool call of the first
    choice, in order, with the call's id and name and its parsed
    arguments; its role is [assistant] and its model the one asked. *)
Theorem translated_content_shape
        (JSON_parse : string -> option json) (random_id model : string)
        (messages : list OpenAIMessage) (data : OpenAIResponse)
        (response : AnthropicResponse) :
  translate JSON_parse random_id model messages data = inr response ->
  exists choice others blocks,
    or_choices data = choice :: others
    /\ rs_content response
       = response_text (or_empty (om_content (oc_message choice))) :: blocks
    /\ map Some blocks = map (tool_use_block JSON_parse) (calls_of choice)
    /\ rs_stop_reason response = mapStopReason (oc_finish_reason choice)
    /\ rs_role response = "assistant"
    /\ rs_model response = model.
Proof.
  unfold translate. destruct (or_error data); [discriminate|].
  destruct (or_choices data) as [|choice others]; [discriminate|].
  fold (calls_of choice).
  destruct (tool_use_blocks JSON_parse (calls_of choice)) as [e|bs] eqn:B;
    [discriminate|].
  intros [= <-]. exists choice, others, bs. simpl.
  repeat split. now apply tool_use_blocks_inr.
Qed.

(** X7: the stop reason is [tool_use] exactly for the finish reason
    [tool_calls], [max_tokens] exactly for [length], and [end_turn] for
    everything else, an absent finish reason included. *)
Theorem mapStopReason_cases (finishReason : option string) :
  (mapStopReason finishReason = tool_use <-> finishReason = Some "tool_calls")
  /\ (mapStopReason finishReason = max_tokens <-> finishReason = Some "length")
  /\ (mapStopReason finishReason = end_turn
      <-> finishReason <> Some "tool_calls"
          /\ finishReason <> Some "length").
Proof.
  unfold mapStopReason. destruct finishReason as [reason|].
  - destruct (String.eqb reason "tool_calls") eqn:E1.
    { apply String.eqb_eq in E1. subst. repeat split; try discriminate; auto.
      intros [H _]. now contradiction H. }
    destruct (String.eqb reason "stop") eqn:E2.
    { apply String.eqb_eq in E2. subst. repeat split; discriminate. }
    destruct (String.eqb reason "length") eqn:E3.
    { apply String.eqb_eq in E3. subst. repeat split; try discriminate; auto.
      intros [_ H]. now contradiction H. }
    apply String.eqb_neq in E1, E3.
    repeat split; try discriminate; congruence.
  - repeat split; discriminate.
Qed.

Lemma replace_first_prefix (pat rep s : string) :
  replace_first pat rep (pat ++ s) = (rep ++ s)%string.
Proof.
  assert (P : String.prefix pat (pat ++ s) = true).
  { induction pat as [|c pat IH]; simpl; [now destruct s|].
    destruct (Ascii.ascii_dec c c); [exact IH | contradiction]. }
  assert (U : forall t,
             String.prefix pat t = true ->
             replace_first pat rep t
             = (rep ++ substring_from (String.length pat) t)%string).
  { intros t Ht. destruct t; cbn [replace_first]; now rewrite Ht. }
  rewrite (U _ P). now rewrite substring_from_app.
Qed.

(** X8: a backend id that starts with [chatcmpl] is answered with
    [msg] in its place; without a backend id (absent or empty) the
    answer carries the generated id. *)
Theorem message_id_prefix_swapped
        (JSON_parse : string -> option json) (random_id model : string)
        (messages : list OpenAIMessage) (data : OpenAIResponse)
        (response : AnthropicResponse) :
  translate JSON_parse random_id model messages data = inr response ->
  (forall tail, or_id data = Some ("chatcmpl" ++ tail)%string ->
                rs_id response = ("msg" ++ tail)%string)
  /\ (or_id data = None \/ or_id data = Some EmptyString ->
      rs_id response = random_id).
Proof.
  unfold translate. destruct (or_error data); [discriminate|].
  destruct (or_choices data) as [|choice others]; [discriminate|].
  destruct (tool_use_blocks JSON_parse _); [discriminate|].
  intros [= <-]. simpl. split.
  - intros tail ->. simpl. apply (replace_first_prefix "chatcmpl" "msg" tail).
  - intros [->| ->]; reflexivity.
Qed.

(** A response with one tool call whose arguments parse. *)
Definition parse_braces (text : string) : option json :=
  if String.eqb text "{}" then Some (JObj []) else None.

Definition calling_response : OpenAIResponse :=
  {| or_id := Some "chatcmpl-42";
     or_error := None;
     or_choices :=
       [ {| oc_message :=
              {| om_role := "assistant"; om_content := None;
                 om_tool_calls :=
                   Some [ StreamingFacts.tool_call_delta None (Some "call_7")
                            (Some "search") (Some "{}") ];
                 om_tool_call_id := None |};
            oc_finish_reason := Some "tool_calls" |} ];
     or_usage := None |}.

Definition calling_translated : AnthropicResponse :=
  {| rs_content := [response_text EmptyString;
                    response_tool_use (Some "call_7") (Some "search") (JObj [])];
     rs_id := "msg-42";
     rs_model := "m";
     rs_role := "assistant";
     rs_stop_reason := tool_use;
     rs_type := "message";
     rs_usage := {| input_tokens := 0; output_tokens := 0 |} |}.

Lemma translated_content_shape_witness :
  translate parse_braces "msg_r" "m" [] calling_response
  = inr calling_translated
  /\ exists choice others blocks,
       or_choices calling_response = choice :: others
       /\ rs_content calling_translated
          = response_text (or_empty (om_content (oc_message choice))) :: blocks
       /\ map Some blocks = map (tool_use_block parse_braces) (calls_of choice)
       /\ rs_stop_reason calling_translated
          = mapStopReason (oc_finish_reason choice)
       /\ rs_role calling_translated = "assistant"
       /\ rs_model calling_translated = "m".
Proof.
  split; [reflexivity|].
  exact (translated_content_shape parse_braces "msg_r" "m" [] calling_response
           calling_translated eq_refl).
Defined.

Lemma message_id_prefix_swapped_witness :
  translate parse_braces "msg_r" "m" [] calling_response
  = inr calling_translated
  /\ (forall tail, or_id calling_response = Some ("chatcmpl" ++ tail)%string ->
                   rs_id calling_translated = ("msg" ++ tail)%string)
  /\ (or_id calling_response = None
      \/ or_id calling_response = Some EmptyString ->
      rs_id calling_translated = "msg_r").
Proof.
  split; [reflexivity|].
  exact (message_id_prefix_swapped parse_braces "msg_r" "m" [] calling_response
           calling_translated eq_refl).
Defined.

End NonStreamMore.

(** ** StreamingReencoder: state, lines and chunks *)

Module StreamingMore.
Import Streaming StreamingFacts JsStringFacts.

(** The texts of the [text_delta] and of the [thinking_delta] events. *)
Fixpoint text_deltas (actions : list RawAction) : list string :=
  match actions with
  | [] => []
  | sendSSE (content_block_delta _ (text_delta text)) :: rest =>
      text :: text_deltas rest
  | _ :: rest => text_deltas rest
  end.

Fixpoint thinking_deltas (actions : list RawAction) : list string :=
  match actions with
  | [] => []
  | sendSSE (content_block_delta _ (thinking_delta text)) :: rest =>
      text :: thinking_deltas rest
  | _ :: rest => thinking_deltas rest
  end.

Lemma text_deltas_app a b :
  text_deltas (a ++ b) = text_deltas a ++ text_deltas b.
Proof.
  induction a as [|x a IH]; simpl; [reflexivity|].
  destruct x as [|[]|]; try exact IH.
  destruct delta; try exact IH. simpl. now rewrite IH.
Qed.

Lemma thinking_deltas_app a b :
  thinking_deltas (a ++ b) = thinking_deltas a ++ thinking_deltas b.
Proof.
  induction a as [|x a IH]; simpl; [reflexivity|].
  destruct x as [|[]|]; try exact IH.
  destruct delta; try exact IH. simpl. now rewrite IH.
Qed.

Definition content_of (c : Conn) : string :=
  accumulatedContent (streamingState c).
Definition reasoning_of (c : Conn) : string :=
  accumulatedReasoning (streamingState c).
Definition stored_usage (c : Conn) : option Usage := usage (streamingState c).

(** What one tool-call delta leaves alone. *)
Lemma on_tool_call_texts c toolCall :
  content_of (on_tool_call c toolCall) = content_of c
  /\ reasoning_of (on_tool_call c toolCall) = reasoning_of c
  /\ text_deltas (raw (on_tool_call c toolCall)) = text_deltas (raw c)
  /\ thinking_deltas (raw (on_tool_call c toolCall)) = thinking_deltas (raw c).
Proof.
  rewrite on_tool_call_raw, !text_deltas_app, !thinking_deltas_app.
  assert (Q : text_deltas (opened_by toolCall (accumulators c)) = []
              /\ thinking_deltas (opened_by toolCall (accumulators c)) = [])
    by (unfold opened_by; now destruct (acc_get _ _)).
  assert (D : text_deltas (diff_step (block_index toolCall)
                             (stored (block_index toolCall) (accumulators c))
                             (arguments_of toolCall)) = []
              /\ thinking_deltas (diff_step (block_index toolCall)
                             (stored (block_index toolCall) (accumulators c))
                             (arguments_of toolCall)) = [])
    by (unfold diff_step; now destruct (_ <? _)%nat).
  destruct Q as [-> ->], D as [-> ->]. rewrite !app_nil_r.
  unfold content_of, reasoning_of, on_tool_call.
  destruct c as [ok [ct rs us tb tc acc mid] tr]. simpl.
  destruct (acc_get (block_index toolCall) acc) as [old|] eqn:G; simpl.
  - rewrite G. now destruct (String.length old <? _)%nat.
  - rewrite acc_get_set_same. simpl. now destruct (0 <? _)%nat.
Qed.

Lemma fold_tool_calls_texts toolCalls : forall c,
  content_of (fold_left on_tool_call toolCalls c) = content_of c
  /\ reasoning_of (fold_left on_tool_call toolCalls c) = reasoning_of c
  /\ text_deltas (raw (fold_left on_tool_call toolCalls c))
     = text_deltas (raw c)
  /\ thinking_deltas (raw (fold_left on_tool_call toolCalls c))
     = thinking_deltas (raw c)
  /\ textBlockStarted (streamingState (fold_left on_tool_call toolCalls c))
     = textBlockStarted (streamingState c)
  /\ stored_usage (fold_left on_tool_call toolCalls c) = stored_usage c.
Proof.
  induction toolCalls as [|t rest IH]; intros c; simpl; [easy|].
  destruct (IH (on_tool_call c t)) as (A & B & C & D & E & F).
  destruct (on_tool_call_texts c t) as (A' & B' & C' & D').
  destruct (on_tool_call_flags c t) as (_ & _ & E' & F').
  unfold stored_usage in *. repeat split; congruence.
Qed.

Lemma on_content_state c text :
  content_of (on_content c text) = (content_of c ++ text)%string
  /\ reasoning_of (on_content c text) = reasoning_of c
  /\ text_deltas (raw (on_content c text)) = text_deltas (raw c) ++ [text]
  /\ thinking_deltas (raw (on_content c text)) = thinking_deltas (raw c)
  /\ stored_usage (on_content c text) = stored_usage c
  /\ encounteredToolCall (streamingState (on_content c text))
     = encounteredToolCall (streamingState c).
Proof.
  rewrite (proj1 (on_content_spec c text)), !text_deltas_app,
    !thinking_deltas_app.
  unfold content_of, reasoning_of, stored_usage, on_content, open_text_block.
  destruct c as [ok [ct rs us tb tc acc mid] tr]. simpl.
  destruct tb; simpl; now rewrite ?app_nil_r.
Qed.

Lemma on_reasoning_state c text :
  content_of (on_reasoning c text) = content_of c
  /\ reasoning_of (on_reasoning c text) = (reasoning_of c ++ text)%string
  /\ text_deltas (raw (on_reasoning c text)) = text_deltas (raw c)
  /\ thinking_deltas (raw (on_reasoning c text))
     = thinking_deltas (raw c) ++ [text]
  /\ stored_usage (on_reasoning c text) = stored_usage c
  /\ encounteredToolCall (streamingState (on_reasoning c text))
     = encounteredToolCall (streamingState c).
Proof.
  rewrite (proj1 (on_reasoning_spec c text)), !text_deltas_app,
    !thinking_deltas_app.
  unfold content_of, reasoning_of, stored_usage, on_reasoning, open_text_block.
  destruct c as [ok [ct rs us tb tc acc mid] tr]. simpl.
  destruct tb; simpl; now rewrite ?app_nil_r.
Qed.

Section Frames.
Variable parseInt_exponent : Z -> Z.
Variable model : string.
Variable startId : string.

Lemma capture_usage_state c parsed :
  stored_usage (capture_usage c parsed)
  = match sf_usage parsed with Some u => Some u | None => stored_usage c end
  /\ content_of (capture_usage c parsed) = content_of c
  /\ reasoning_of (capture_usage c parsed) = reasoning_of c
  /\ encounteredToolCall (streamingState (capture_usage c parsed))
     = encounteredToolCall (streamingState c).
Proof. unfold capture_usage. now destruct (sf_usage parsed). Qed.

Lemma sendSuccessMessage_texts c :
  text_deltas (raw (sendSuccessMessage model startId c)) = text_deltas (raw c)
  /\ thinking_deltas (raw (sendSuccessMessage model startId c))
     = thinking_deltas (raw c).
Proof.
  rewrite (proj1 (proj2 (sendSuccessMessage_spec model startId c))).
  rewrite text_deltas_app, thinking_deltas_app.
  destruct (isSucceeded c); simpl; now rewrite !app_nil_r.
Qed.

(** The delta of a frame: [parsed.choices[0]?.delta]. *)
Definition delta_of (parsed : StreamFrame) : option StreamDelta :=
  match sf_choices parsed with
  | choice :: _ => sc_delta choice
  | [] => None
  end.

Lemma on_delta_usage c parsed :
  stored_usage (on_delta c parsed) = stored_usage c.
Proof.
  unfold on_delta. fold (delta_of parsed).
  destruct (delta_of parsed) as [d|]; [|reflexivity].
  destruct (sd_tool_calls d) as [calls|];
    [apply fold_tool_calls_texts|].
  destruct (truthy_str (sd_content d)); [apply on_content_state|].
  destruct (truthy_str (sd_reasoning d)); [apply on_reasoning_state|].
  reflexivity.
Qed.

Lemma on_frame_usage c parsed :
  stored_usage (on_frame model startId c parsed)
  = match sf_usage parsed with Some u => Some u | None => stored_usage c end.
Proof.
  unfold on_frame. rewrite on_delta_usage.
  rewrite (proj1 (capture_usage_state _ parsed)).
  unfold stored_usage.
  now rewrite (proj2 (proj2 (sendSuccessMessage_spec model startId c))).
Qed.

(** The usage object of the last frame that carried one. *)
Definition last_usage (frames : list StreamFrame) (before : option Usage)
  : option Usage :=
  fold_left (fun u parsed =>
               match sf_usage parsed with Some x => Some x | None => u end)
            frames before.

(** X9: the stored usage is overwritten by every frame that carries a
    usage object and by no other, so after any run of frames it is the
    usage of the last frame that carried one; on the sentinel the
    [message_delta] then reports that object's [completion_tokens]. *)
Theorem usage_last_write_wins (frames : list StreamFrame) (c : Conn) :
  let c' := fold_left (on_frame model startId) frames c in
  stored_usage c' = last_usage frames (stored_usage c)
  /\ forall u,
       last_usage frames (stored_usage c) = Some u ->
       exists before reason,
         raw (finalize parseInt_exponent c')
         = before ++ [sendSSE (message_delta reason (completion_tokens u));
                      sendSSE message_stop; raw_end].
Proof.
  cbv zeta.
  assert (E : stored_usage (fold_left (on_frame model startId) frames c)
              = last_usage frames (stored_usage c)).
  { revert c. unfold last_usage.
    induction frames as [|f rest IH]; intros c; simpl; [reflexivity|].
    now rewrite IH, on_frame_usage. }
  split; [exact E|]. intros u Hu. rewrite <- E in Hu.
  rewrite (proj1 (finalize_raw parseInt_exponent _)), app_assoc.
  eexists _, _. f_equal. unfold closing, final_tokens.
  unfold stored_usage in Hu. now rewrite Hu.
Qed.

(** The accumulated texts are what was sent as deltas. *)
Definition mirrors (c : Conn) : Prop :=
  content_of c = String.concat EmptyString (text_deltas (raw c))
  /\ reasoning_of c = String.concat EmptyString (thinking_deltas (raw c)).

Lemma concat_snoc (l : list string) (x : string) :
  String.concat EmptyString (l ++ [x])
  = (String.concat EmptyString l ++ x)%string.
Proof. now rewrite concat_app. Qed.

Lemma on_delta_mirrors c parsed : mirrors c -> mirrors (on_delta c parsed).
Proof.
  intros [Hc Hr]. unfold mirrors, on_delta. fold (delta_of parsed).
  destruct (delta_of parsed) as [d|]; [|easy].
  destruct (sd_tool_calls d) as [calls|].
  - destruct (fold_tool_calls_texts calls c) as (A & B & C & D & _).
    now rewrite A, B, C, D.
  - destruct (truthy_str (sd_content d)).
    + destruct (on_content_state c (or_empty (sd_content d)))
        as (A & B & C & D & _).
      rewrite A, B, C, D, concat_snoc. now rewrite Hc.
    + destruct (truthy_str (sd_reasoning d)); [|easy].
      destruct (on_reasoning_state c (or_empty (sd_reasoning d)))
        as (A & B & C & D & _).
      rewrite A, B, C, D, concat_snoc. now rewrite Hr.
Qed.

Lemma on_frame_mirrors c parsed :
  mirrors c -> mirrors (on_frame model startId c parsed).
Proof.
  intros [Hc Hr]. unfold on_frame. apply on_delta_mirrors.
  destruct (capture_usage_state (sendSuccessMessage model startId c) parsed)
    as (_ & A & B & _).
  destruct (capture_usage_spec (sendSuccessMessage model startId c) parsed)
    as (R & _).
  destruct (sendSuccessMessage_texts c) as [T1 T2].
  unfold mirrors. rewrite A, B, R, T1, T2.
  unfold content_of, reasoning_of in *.
  now rewrite (proj2 (proj2 (sendSuccessMessage_spec model startId c))).
Qed.

(** The state a loop is left with. *)
Definition conn_of (e : Exit) : Conn :=
  match e with
  | Continue c | Return c | Throw c _ => c
  end.

Lemma finalize_mirrors c :
  mirrors c -> mirrors (finalize parseInt_exponent c).
Proof.
  intros [Hc Hr]. unfold mirrors.
  rewrite (proj1 (finalize_raw parseInt_exponent c)).
  rewrite !text_deltas_app, !thinking_deltas_app.
  assert (S : forall ks,
             text_deltas (map (key_stop parseInt_exponent) ks) = []
             /\ thinking_deltas (map (key_stop parseInt_exponent) ks) = []).
  { induction ks as [|k ks [I1 I2]]; simpl; auto. }
  destruct (S (stop_keys c)) as [-> ->]. simpl. rewrite !app_nil_r.
  exact (conj Hc Hr).
Qed.

Lemma on_plain_mirrors c u choices :
  mirrors c -> mirrors (conn_of (on_plain model startId c u choices)).
Proof.
  intros M.
  exact (on_frame_mirrors c
           {| sf_error := None; sf_usage := u; sf_choices := [] |} M).
Qed.

Variable JSON_parse : string -> option ParsedLine.

Lemma on_data_mirrors c dataStr :
  mirrors c -> mirrors (conn_of (on_data parseInt_exponent model startId
      JSON_parse c dataStr)).
Proof.
  intros M. unfold on_data.
  destruct (String.eqb dataStr "[DONE]"); [now apply finalize_mirrors|].
  destruct (JSON_parse dataStr) as [[|[err|] u choices|parsed]|];
    try exact M.
  - now apply on_plain_mirrors.
  - destruct (sf_error parsed); [exact M|]. now apply on_frame_mirrors.
Qed.

Lemma for_lines_mirrors lines : forall c,
  mirrors c -> mirrors (conn_of (for_lines parseInt_exponent model startId
      JSON_parse c lines)).
Proof.
  induction lines as [|line rest IH]; intros c M; simpl; [exact M|].
  destruct (String.eqb (trim line) EmptyString
            || negb (startsWith "data:" (trim line))); [now apply IH|].
  pose proof (on_data_mirrors c (strip_data_prefix (trim line)) M) as D.
  destruct (on_data parseInt_exponent model startId JSON_parse c _);
    [now apply IH | exact D..].
Qed.

(** X10: whatever the backend sends, the accumulated content is the
    concatenation of the texts sent to the client as [text_delta], and
    the accumulated reasoning that of the [thinking_delta] texts, when
    the reader loop is left (fall through, sentinel or throw). *)
Theorem accumulated_text_mirrors_deltas
        (stateId : string) (chunks : list string) :
  let c := conn_of (read_loop parseInt_exponent model startId JSON_parse
                      (initialConn stateId) chunks) in
  content_of c = String.concat EmptyString (text_deltas (raw c))
  /\ reasoning_of c = String.concat EmptyString (thinking_deltas (raw c)).
Proof.
  cbv zeta. change (mirrors (conn_of (read_loop parseInt_exponent model
      startId JSON_parse
                                        (initialConn stateId) chunks))).
  assert (M0 : mirrors (initialConn stateId)) by now split.
  revert M0. generalize (initialConn stateId).
  induction chunks as [|chunk rest IH]; intros c M; simpl; [exact M|].
  pose proof (for_lines_mirrors (split (ascii_of_nat 10) chunk) c M) as D.
  destruct (for_lines parseInt_exponent model startId JSON_parse c _);
    [now apply IH | exact D..].
Qed.

(** X11: a frame whose delta carries a [tool_calls] array, even an
    empty one, is handled as tool calls only: its content and its
    reasoning are neither accumulated nor sent, and the text block is
    not opened by it. *)
Theorem tool_calls_hide_text
        (c : Conn) (parsed : StreamFrame) (d : StreamDelta)
        (calls : list OpenAIToolCall) :
  delta_of parsed = Some d ->
  sd_tool_calls d = Some calls ->
  let c' := on_frame model startId c parsed in
  content_of c' = content_of c
  /\ reasoning_of c' = reasoning_of c
  /\ text_deltas (raw c') = text_deltas (raw c)
  /\ thinking_deltas (raw c') = thinking_deltas (raw c)
  /\ textBlockStarted (streamingState c')
     = textBlockStarted (streamingState c).
Proof.
  intros Hd Hc. cbv zeta. unfold on_frame, on_delta. fold (delta_of parsed).
  rewrite Hd, Hc.
  destruct (fold_tool_calls_texts calls
              (capture_usage (sendSuccessMessage model startId c) parsed))
    as (A & B & C & D & E & _).
  destruct (capture_usage_state (sendSuccessMessage model startId c) parsed)
    as (_ & A' & B' & _).
  destruct (capture_usage_spec (sendSuccessMessage model startId c) parsed)
    as (R & _ & _ & T).
  destruct (sendSuccessMessage_texts c) as [T1 T2].
  rewrite A, B, C, D, E, A', B', R, T, T1, T2.
  unfold content_of, reasoning_of.
  now rewrite (proj2 (proj2 (sendSuccessMessage_spec model startId c))).
Qed.

End Frames.

(** *** Lines and chunks *)

Section Lines.
Variable parseInt_exponent : Z -> Z.
Variable model : string.
Variable startId : string.
Variable JSON_parse : string -> option ParsedLine.

(** The data lines handled one after the other, until one leaves. *)
Fixpoint feed (c : Conn) (dataStrs : list string) : Exit :=
  match dataStrs with
  | [] => Continue c
  | dataStr :: rest =>
      match on_data parseInt_exponent model startId JSON_parse c dataStr with
      | Continue c' => feed c' rest
      | exit => exit
      end
  end.

Lemma feed_app a : forall b c,
  feed c (a ++ b)
  = match feed c a with
    | Continue c' => feed c' b
    | exit => exit
    end.
Proof.
  induction a as [|d a IH]; intros b c; simpl; [reflexivity|].
  destruct (on_data parseInt_exponent model startId JSON_parse c d);
    [apply IH | reflexivity..].
Qed.

Lemma for_lines_feed lines : forall c,
  for_lines parseInt_exponent model startId JSON_parse c lines
  = feed c (map (fun line => strip_data_prefix (trim line))
                (filter is_data_line lines)).
Proof.
  induction lines as [|line rest IH]; intros c; simpl; [reflexivity|].
  unfold is_data_line at 1.
  destruct (String.eqb (trim line) EmptyString
            || negb (startsWith "data:" (trim line))); simpl; [apply IH|].
  destruct (on_data parseInt_exponent model startId JSON_parse c _);
    [apply IH | reflexivity..].
Qed.

Lemma read_loop_feed chunks : forall c,
  read_loop parseInt_exponent model startId JSON_parse c chunks = feed c
      (data_lines chunks).
Proof.
  induction chunks as [|chunk rest IH]; intros c; simpl; [reflexivity|].
  rewrite feed_app, <- for_lines_feed.
  destruct (for_lines parseInt_exponent model startId JSON_parse c _);
    [apply IH | reflexivity..].
Qed.

Lemma split_at_separator (sep : ascii) (a b : string) :
  split sep (a ++ String sep b) = split sep a ++ split sep b.
Proof.
  induction a as [|ch a IH]; simpl.
  - now rewrite Ascii.eqb_refl.
  - destruct (Ascii.eqb ch sep); [now rewrite IH|]. rewrite IH.
    pose proof (split_nonempty sep a).
    destruct (split sep a); [contradiction | reflexivity].
Qed.

Lemma data_lines_app a b : data_lines (a ++ b) = data_lines a ++ data_lines b.
Proof. unfold data_lines. apply flat_map_app. Qed.

(** X12: the reader loop sees its input only through the sequence of
    data lines: it is the data lines fed one by one, so blank lines and
    lines that do not start with [data:] change nothing, two bodies
    with the same data lines are handled alike, and a chunk may be cut
    in two at any newline. *)
Theorem reader_loop_sees_data_lines (c : Conn) (chunks : list string) :
  read_loop parseInt_exponent model startId JSON_parse c chunks = feed c
      (data_lines chunks)
  /\ (forall chunks',
         data_lines chunks' = data_lines chunks ->
         read_loop parseInt_exponent model startId JSON_parse c chunks'
         = read_loop parseInt_exponent model startId JSON_parse c chunks)
  /\ (forall a b,
         read_loop parseInt_exponent model startId JSON_parse c
           ((a ++ String (ascii_of_nat 10) b)%string :: chunks)
         = read_loop parseInt_exponent model startId JSON_parse c (a :: b ::
             chunks)).
Proof.
  split; [apply read_loop_feed|]. split.
  - intros chunks' E. now rewrite !read_loop_feed, E.
  - intros a b. rewrite !read_loop_feed. f_equal.
    change (a :: b :: chunks) with ([a; b] ++ chunks).
    change ((a ++ String (ascii_of_nat 10) b)%string :: chunks)
      with ([(a ++ String (ascii_of_nat 10) b)%string] ++ chunks).
    rewrite !data_lines_app. f_equal. unfold data_lines. simpl.
    rewrite !app_nil_r, split_at_separator, filter_app, map_app.
    reflexivity.
Qed.

(** X13: reading a body that continues another one resumes where the
    first left the state; once the sentinel was read or a line threw,
    nothing of what follows is read. *)
Theorem reader_loop_composes (c : Conn) (first more : list string) :
  read_loop parseInt_exponent model startId JSON_parse c (first ++ more)
  = match read_loop parseInt_exponent model startId JSON_parse c first with
    | Continue c' => read_loop parseInt_exponent model startId JSON_parse c'
        more
    | exit => exit
    end.
Proof.
  revert c. induction first as [|chunk rest IH]; intros c; simpl;
    [reflexivity|].
  destruct (for_lines parseInt_exponent model startId JSON_parse c _);
    [apply IH | reflexivity..].
Qed.

End Lines.

(** *** White space around a data line *)

Definition all_space (s : string) : Prop :=
  forall ch, In ch (list_ascii_of_string s) -> is_space ch = true.

Lemma trimStart_spaces (w s : string) :
  all_space w -> trimStart (w ++ s) = trimStart s.
Proof.
  induction w as [|ch w IH]; intros H; simpl; [reflexivity|].
  rewrite (H ch (or_introl eq_refl)). apply IH.
  intros x Hx. apply H. now right.
Qed.

Lemma trimEnd_spaces_only (w : string) : all_space w -> trimEnd w = EmptyString.
Proof.
  induction w as [|ch w IH]; intros H; simpl; [reflexivity|].
  rewrite IH by (intros x Hx; apply H; now right).
  now rewrite (H ch (or_introl eq_refl)).
Qed.

Lemma trimEnd_spaces (s w : string) :
  all_space w -> trimEnd (s ++ w) = trimEnd s.
Proof.
  intros H. induction s as [|ch s IH]; simpl.
  - now apply trimEnd_spaces_only.
  - now rewrite IH.
Qed.

Lemma trimEnd_keeps (a p : string) :
  trimEnd p = p -> p <> EmptyString -> trimEnd (a ++ p) = (a ++ p)%string.
Proof.
  intros Hp Hne. induction a as [|ch a IH]; simpl; [exact Hp|].
  rewrite IH. destruct (a ++ p)%string eqn:E; [|reflexivity].
  destruct a; simpl in E; [contradiction | discriminate].
Qed.

(** X14: a line is taken as the data line [p] whatever white space
    stands before [data:], between [data:] and [p], and after [p],
    none included; so [data:[DONE]] and an indented, padded
    [data:   [DONE]] are both the sentinel. *)
Theorem data_line_ignores_white_space (before between after p : string) :
  all_space before -> all_space between -> all_space after ->
  trimStart p = p -> trimEnd p = p -> p <> EmptyString ->
  let line := (before ++ "data:" ++ between ++ p ++ after)%string in
  is_data_line line = true
  /\ strip_data_prefix (trim line) = p.
Proof.
  intros Hb Hm Ha Hs He Hne. cbv zeta.
  assert (T : trim (before ++ "data:" ++ between ++ p ++ after)
              = ("data:" ++ between ++ p)%string).
  { unfold trim. rewrite trimStart_spaces by assumption.
    change (trimStart ("data:" ++ between ++ p ++ after))
      with ("data:" ++ between ++ p ++ after)%string.
    replace ("data:" ++ between ++ p ++ after)%string
      with ((("data:" ++ between) ++ p) ++ after)%string
      by (now rewrite !append_assoc).
    rewrite trimEnd_spaces by assumption.
    rewrite trimEnd_keeps by assumption. now rewrite append_assoc. }
  unfold is_data_line, strip_data_prefix, startsWith. rewrite T.
  assert (P : String.prefix "data:" ("data:" ++ between ++ p) = true)
    by (cbn; now destruct (between ++ p)%string).
  rewrite P. split; [reflexivity|].
  change (substring_from 5 ("data:" ++ between ++ p))
    with (between ++ p)%string.
  now rewrite trimStart_spaces.
Qed.

Lemma data_line_ignores_white_space_witness :
  is_data_line ("  data:   [DONE] " ++ newline) = true
  /\ strip_data_prefix (trim ("  data:   [DONE] " ++ newline)) = "[DONE]".
Proof.
  apply (data_line_ignores_white_space "  " "   " (" " ++ newline) "[DONE]");
    try reflexivity; try discriminate;
    intros ch H; simpl in H;
    repeat (destruct H as [<-|H]; [reflexivity|]); destruct H.
Defined.

(** *** The accumulator map and the tool-call flag *)

(** X15: a tool-call delta touches the entry of its own block only,
    and leaves there the new text if it is strictly longer than the
    stored one, and the stored one otherwise (also when the two are
    equally long and differ): the stored length is the maximum of the
    two, so a text that is not longer than what was seen is dropped. *)
Theorem tool_call_keeps_longest (c : Conn) (toolCall : OpenAIToolCall) :
  let idx := block_index toolCall in
  let c' := on_tool_call c toolCall in
  let old := stored idx (accumulators c) in
  let new := arguments_of toolCall in
  stored idx (accumulators c')
  = (if (String.length old <? String.length new)%nat then new else old)
  /\ (String.length new <= String.length old ->
      stored idx (accumulators c') = old)
  /\ (String.length old < String.length new ->
      stored idx (accumulators c') = new)
  /\ String.length (stored idx (accumulators c'))
     = Nat.max (String.length old) (String.length new)
  /\ forall other, other <> idx ->
       acc_get other (accumulators c') = acc_get other (accumulators c).
Proof.
  cbv zeta. pose proof (on_tool_call_stored c toolCall) as S. cbv zeta in S.
  rewrite S. split; [reflexivity|]. split; [|split; [|split]].
  - intros L. apply Nat.ltb_ge in L. now rewrite L.
  - intros L. apply Nat.ltb_lt in L. now rewrite L.
  - destruct (String.length _ <? _)%nat eqn:L.
    + apply Nat.ltb_lt in L. lia.
    + apply Nat.ltb_ge in L. lia.
  - intros other Hne. rewrite on_tool_call_accumulators. cbv zeta.
    assert (O : acc_get other
                  match acc_get (block_index toolCall) (accumulators c) with
                  | Some _ => accumulators c
                  | None => acc_set (block_index toolCall) EmptyString
                              (accumulators c)
                  end
                = acc_get other (accumulators c)).
    { destruct (acc_get (block_index toolCall) (accumulators c));
        [reflexivity|]. apply acc_get_set_other. congruence. }
    destruct (String.length _ <? _)%nat; [|exact O].
    rewrite acc_get_set_other by congruence. exact O.
Qed.







Section Flag.
Variable parseInt_exponent : Z -> Z.
Variable model : string.
Variable startId : string.
Variable JSON_parse : string -> option ParsedLine.





End Flag.

(** A frame that carries a text and an empty [tool_calls] array. *)
Definition text_and_no_calls : StreamFrame :=
  ProxyFacts.delta_frame
    {| sd_tool_calls := Some []; sd_content := Some "Hi";
       sd_reasoning := None |}.

Lemma tool_calls_hide_text_witness :
  let c' := on_frame "m" "msg_a" (initialConn "msg_b") text_and_no_calls in
  content_of c' = content_of (initialConn "msg_b")
  /\ reasoning_of c' = reasoning_of (initialConn "msg_b")
  /\ text_deltas (raw c') = text_deltas (raw (initialConn "msg_b"))
  /\ thinking_deltas (raw c') = thinking_deltas (raw (initialConn "msg_b"))
  /\ textBlockStarted (streamingState c')
     = textBlockStarted (streamingState (initialConn "msg_b")).
Proof.
  apply (tool_calls_hide_text "m" "msg_a" (initialConn "msg_b")
           text_and_no_calls
           {| sd_tool_calls := Some []; sd_content := Some "Hi";
              sd_reasoning := None |} []); reflexivity.
Defined.

End StreamingMore.

(** ** Tool-call delta diffing over the frames of a stream (C3) *)

Module ToolCallFacts.
Import Streaming StreamingFacts StreamingMore JsStringFacts.

Section Frames.
Variable parseInt_exponent : Z -> Z.
Variable model : string.
Variable startId : string.
Variable JSON_parse : string -> option ParsedLine.



Definition opening (c : Conn) : list RawAction :=
  if isSucceeded c then [] else header model startId.





End Frames.










End ToolCallFacts.

(** ** ProxyOrchestrator: what is written and which status is set *)

Module HandlerMore.
Import Proxy.

Section Handler.
Variable EXCLUDED_TOOLS : list string.
Variable config : ProxyConfig.
Variable JSON_stringify : json -> string.
Variable parse_response : string -> option NonStream.ParsedResponse.
Variable parse_value : string -> option json.
Variable parse_frame : string -> option Streaming.ParsedLine.
Variable parseInt_exponent : Z -> Z.
Variable syntax_message : option string -> string.
Variable type_message : Nullish -> string -> string.
Variable random_id : nat -> string.

Definition handle (payload : AnthropicRequest) (resp : FetchResponse)
  : list RawAction * Reply :=
  handler EXCLUDED_TOOLS config JSON_stringify parse_response parse_value
    parse_frame parseInt_exponent syntax_message type_message random_id
        payload resp.

Lemma stream_flag_strict (payload : AnthropicRequest) :
  oq_stream (Request.openaiPayload EXCLUDED_TOOLS config JSON_stringify payload)
  = true ->
  ar_stream payload = Some (JBool true).
Proof.
  unfold Request.openaiPayload. simpl.
  destruct (ar_stream payload) as [[| [|] | | | |]|]; try discriminate.
  reflexivity.
Qed.

(** X17: the handler writes to the raw reply only when the request
    asked for streaming with [stream] being the boolean [true], the
    backend answered with a 2xx status and the response has a body;
    in every other case nothing is written there. *)
Theorem raw_output_only_when_streaming
        (payload : AnthropicRequest) (resp : FetchResponse) :
  fst (handle payload resp) <> [] ->
  ar_stream payload = Some (JBool true)
  /\ ok resp = true
  /\ body resp <> None.
Proof.
  unfold handle, handler. destruct (ok resp); cbn [negb fst]; [|easy].
  destruct (oq_stream (Request.openaiPayload EXCLUDED_TOOLS config
                         JSON_stringify payload)) eqn:S; cbn [negb].
  - intros H. split; [now apply stream_flag_strict|]. split; [reflexivity|].
    unfold stream in H.
    destruct (body resp); [discriminate | now contradiction H].
  - destruct (parse_response (text resp)) as [data|]; [|easy].
    destruct (NonStream.respond _ _ _ _ _); easy.
Qed.

(** X18: the status of the reply is the backend's status when that is
    not 2xx; otherwise it is 200, or 500 with [{error: message}] as the
    body: a reply with a translated message always has status 200. *)
Theorem reply_status_cases
        (payload : AnthropicRequest) (resp : FetchResponse) :
  let reply := snd (handle payload resp) in
  (ok resp = false -> reply_code reply = status resp)
  /\ (ok resp = true ->
      (reply_code reply = 200%Z
       /\ (reply_payload reply = payload_void
           \/ exists message, reply_payload reply = payload_message message))
      \/ (reply_code reply = 500%Z
          /\ exists message,
               reply_payload reply = payload_json (error_object message))).
Proof.
  cbv zeta. unfold handle, handler. destruct (ok resp); cbn [negb].
  - split; [discriminate|]. intros _.
    destruct (oq_stream (Request.openaiPayload EXCLUDED_TOOLS config
                           JSON_stringify payload)); cbn [negb].
    + unfold stream. destruct (body resp) as [chunks|];
        [|right; split; [reflexivity | eexists; reflexivity]].
      destruct (Streaming.read_loop _ _ _ _ _); simpl;
        [left; auto | left; auto |
         right; split; [reflexivity | eexists; reflexivity]].
    + destruct (parse_response (text resp)) as [data|];
        [|right; split; [reflexivity | eexists; reflexivity]].
      destruct (NonStream.respond _ _ _ _ _) as [e|r]; simpl.
      * right. split; [reflexivity | eexists; reflexivity].
      * left. split; [reflexivity|]. right. now exists r.
  - split; [reflexivity | discriminate].
Qed.

End Handler.

Definition streaming_request : AnthropicRequest :=
  {| ar_system := None;
     ar_messages :=
       Some [ {| am_role := "user"; am_content := content_string "Hello" |} ];
     ar_tools := None;
     ar_max_tokens := None;
     ar_temperature := None;
     ar_stream := Some (JBool true);
     ar_thinking := None |}.

Lemma raw_output_only_when_streaming_witness :
  fst (handle [] HandlerFacts.sample_config HandlerFacts.no_stringify
         HandlerFacts.no_response HandlerFacts.no_value
         ProxyFacts.parse_sample ProxyFacts.sample_exponent
             ProxyFacts.sample_syntax_message ProxyFacts.sample_type_message
         ProxyFacts.sample_id streaming_request
         (ProxyFacts.streamed 200 ProxyFacts.hi_then_done)) <> []
  /\ ar_stream streaming_request = Some (JBool true)
  /\ ok (ProxyFacts.streamed 200 ProxyFacts.hi_then_done) = true
  /\ body (ProxyFacts.streamed 200 ProxyFacts.hi_then_done) <> None.
Proof.
  assert (H : fst (handle [] HandlerFacts.sample_config
                     HandlerFacts.no_stringify HandlerFacts.no_response
                     HandlerFacts.no_value ProxyFacts.parse_sample
                         ProxyFacts.sample_exponent
                     ProxyFacts.sample_syntax_message
                     ProxyFacts.sample_type_message ProxyFacts.sample_id
                     streaming_request
                     (ProxyFacts.streamed 200 ProxyFacts.hi_then_done)) <> [])
    by discriminate.
  split; [exact H|].
  exact (raw_output_only_when_streaming [] HandlerFacts.sample_config
           HandlerFacts.no_stringify HandlerFacts.no_response
           HandlerFacts.no_value ProxyFacts.parse_sample
               ProxyFacts.sample_exponent
           ProxyFacts.sample_syntax_message
           ProxyFacts.sample_type_message ProxyFacts.sample_id
           streaming_request
           (ProxyFacts.streamed 200 ProxyFacts.hi_then_done) H).
Defined.

End HandlerMore.

(* ================================================================== *)
(** ** Start-up: command line, configuration, request headers
       (index.ts 51-73, 104-128, 309-317, 599-608) *)
(* ================================================================== *)

Module Startup.

Record CliArgs := {
  cli_port : option Z;
  cli_help : bool
}.

(** [parseCliArgs] returns, or leaves through [process.exit(code)]. *)
Inductive CliResult :=
| Parsed (parsed : CliArgs)
| ProcessExit (code : Z).

Definition is_help_flag (arg : string) : bool :=
  String.eqb arg "--help" || String.eqb arg "-h".

Definition is_port_flag (arg : string) : bool :=
  String.eqb arg "--port" || String.eqb arg "-p".

Section Cli.
(** [parseInt(text, 10)]; [None]: [NaN]. *)
Variable parseInt : string -> option Z.

(** [portValue && !isNaN(parseInt(portValue, 10))]. *)
Definition valid_port (portValue : string) : bool :=
  negb (String.eqb portValue EmptyString)
  && match parseInt portValue with Some _ => true | None => false end.

(** The [for] loop over [args], from the current argument on. *)
Fixpoint parse_from (args : list string) (parsed : CliArgs) : CliResult :=
  match args with
  | [] => Parsed parsed
  | arg :: rest =>
      if is_help_flag arg then
        parse_from rest {| cli_port := cli_port parsed; cli_help := true |}
      else if is_port_flag arg then
        match rest with
        | portValue :: rest' =>
            if valid_port portValue then
              parse_from rest' {| cli_port := parseInt portValue;
                                  cli_help := cli_help parsed |}
            else ProcessExit 1
        | [] => ProcessExit 1
        end
      else parse_from rest parsed
  end.

(** [args] is [process.argv.slice(2)]. *)
Definition parseCliArgs (args : list string) : CliResult :=
  parse_from args {| cli_port := None; cli_help := false |}.

(** [process.env] and the decimal text of [DEFAULT_PORT]. *)
Variable env : string -> option string.
Variable DEFAULT_PORT_text : string.

(** [cliArgs.port || parseInt(env['PORT'] || DEFAULT_PORT.toString(), 10)];
    [None]: [NaN]. *)
Definition serverPort (cliArgs : CliArgs) : option Z :=
  let fallback :=
    parseInt (or_empty (or_str (env "PORT") (Some DEFAULT_PORT_text))) in
  match cli_port cliArgs with
  | Some p => if Z.eqb p 0 then fallback else Some p
  | None => fallback
  end.

(** How the module's top level goes on: it exits, or the server
    listens on a port. *)
Inductive Start :=
| Exits (code : Z)
| Listens (port : option Z).

(** Whether [await fastify.listen({ port })] resolves: it rejects a
    port that is no number in 0 .. 65535 and one that cannot be
    bound. *)
Variable listen : option Z -> bool.

(** [start()] (lines 599-608): the rejection of [listen] is caught and
    the process exits with code 1. *)
Definition start (port : option Z) : Start :=
  if listen port then Listens port else Exits 1.

Definition startup (args : list string) : Start :=
  match parseCliArgs args with
  | ProcessExit code => Exits code
  | Parsed cliArgs =>
      if cli_help cliArgs then Exits 0 else start (serverPort cliArgs)
  end.
End Cli.

(** The configuration read from the environment. *)
Record ServerConfig := {
  baseUrl : string;
  requiresApiKey : bool;
  key : option string;
  model : string;
  models : ProxyConfig
}.

Section Config.
Variable DEFAULT_BASE_URL : string.
Variable DEFAULT_MODEL : string.
Variable env : string -> option string.

Definition config : ServerConfig :=
  {| baseUrl :=
       or_empty (or_str (env "ANTHROPIC_PROXY_BASE_URL")
                        (Some DEFAULT_BASE_URL));
     requiresApiKey := negb (truthy_str (env "ANTHROPIC_PROXY_BASE_URL"));
     key := if truthy_str (env "ANTHROPIC_PROXY_BASE_URL") then None
            else or_str (env "OPENROUTER_API_KEY") None;
     model := DEFAULT_MODEL;
     models :=
       {| models_reasoning :=
            or_empty (or_str (env "REASONING_MODEL") (Some DEFAULT_MODEL));
          models_completion :=
            or_empty (or_str (env "COMPLETION_MODEL") (Some DEFAULT_MODEL)) |}
  |}.

(** The headers of the outbound call. *)
Definition headers (cfg : ServerConfig) : list (string * string) :=
  ("Content-Type", "application/json")
  :: (if requiresApiKey cfg && truthy_str (key cfg)
      then [("Authorization", ("Bearer " ++ or_empty (key cfg))%string)]
      else []).

(** The address of the outbound call. *)
Definition endpoint (cfg : ServerConfig) : string :=
  baseUrl cfg ++ "/v1/chat/completions".
End Config.

End Startup.

Module StartupFacts.
Import Startup.

Section Cli.
Variable parseInt : string -> option Z.

Lemma parse_from_plain (args : list string) : forall parsed,
  existsb is_port_flag args = false ->
  parse_from parseInt args parsed
  = Parsed {| cli_port := cli_port parsed;
              cli_help := cli_help parsed || existsb is_help_flag args |}.
Proof.
  induction args as [|arg rest IH]; intros parsed H; simpl.
  - rewrite orb_false_r. now destruct parsed.
  - simpl in H. apply orb_false_elim in H as [H1 H2].
    destruct (is_help_flag arg).
    + rewrite (IH _ H2). simpl. now rewrite orb_true_r.
    + rewrite H1. now rewrite (IH _ H2).
Qed.

Lemma parse_from_prefix (pre : list string) : forall rest parsed,
  existsb is_port_flag pre = false ->
  parse_from parseInt (pre ++ rest) parsed
  = parse_from parseInt rest
      {| cli_port := cli_port parsed;
         cli_help := cli_help parsed || existsb is_help_flag pre |}.
Proof.
  induction pre as [|arg pre IH]; intros rest parsed H; simpl.
  - rewrite orb_false_r. now destruct parsed.
  - simpl in H. apply orb_false_elim in H as [H1 H2].
    destruct (is_help_flag arg).
    + rewrite (IH _ _ H2). simpl. now rewrite orb_true_r.
    + rewrite H1. now rewrite (IH _ _ H2).
Qed.

Lemma port_flag_is_no_help_flag (flag : string) :
  is_port_flag flag = true -> is_help_flag flag = false.
Proof.
  unfold is_port_flag. intros H. apply orb_prop in H as [H|H];
    apply String.eqb_eq in H; subst; reflexivity.
Qed.

(** X19: without [--port] or [-p] among the arguments the parser
    returns no port and never exits; [help] is set exactly when
    [--help] or [-h] is among them, and every other argument is
    ignored. *)
Theorem arguments_without_port_flag (args : list string) :
  existsb is_port_flag args = false ->
  parseCliArgs parseInt args
  = Parsed {| cli_port := None; cli_help := existsb is_help_flag args |}.
Proof. intros H. unfold parseCliArgs. now rewrite parse_from_plain. Qed.

(** X20: the first [--port] or [-p] takes the argument after it as its
    value, whatever that argument is: if there is none, or it is empty,
    or it is not a number, the process exits with code 1; otherwise the
    port is that number and parsing goes on after the value, which is
    not read as a flag. *)
Theorem port_flag_takes_next_argument
        (pre : list string) (flag : string) (rest : list string) :
  existsb is_port_flag pre = false ->
  is_port_flag flag = true ->
  parseCliArgs parseInt (pre ++ flag :: rest)
  = match rest with
    | [] => ProcessExit 1
    | portValue :: after =>
        if valid_port parseInt portValue then
          parse_from parseInt after
            {| cli_port := parseInt portValue;
               cli_help := existsb is_help_flag pre |}
        else ProcessExit 1
    end.
Proof.
  intros Hpre Hp. unfold parseCliArgs.
  rewrite parse_from_prefix by assumption. simpl.
  rewrite (port_flag_is_no_help_flag flag Hp), Hp.
  reflexivity.
Qed.

Variable env : string -> option string.
Variable DEFAULT_PORT_text : string.
Variable listen : option Z -> bool.


End Cli.

(** [parseInt] on the texts used below. *)
Definition sample_parseInt (text : string) : option Z :=
  if String.eqb text "8080" then Some 8080%Z
  else if String.eqb text "0" then Some 0%Z
  else if String.eqb text "3000" then Some 3000%Z
  else None.

Definition no_env (name : string) : option string := None.

Lemma arguments_without_port_flag_witness :
  parseCliArgs sample_parseInt ["--verbose"; "-h"]
  = Parsed {| cli_port := None; cli_help := true |}.
Proof.
  apply (arguments_without_port_flag sample_parseInt ["--verbose"; "-h"]).
  reflexivity.
Defined.

Lemma port_flag_takes_next_argument_witness :
  parseCliArgs sample_parseInt ["--port"; "--help"] = ProcessExit 1.
Proof.
  apply (port_flag_takes_next_argument sample_parseInt [] "--port" ["--help"]);
    reflexivity.
Defined.

(** [listen] on a machine where every port of the range is free. *)
Definition sample_listen (port : option Z) : bool :=
  match port with
  | Some p => (Z.leb 0 p && Z.leb p 65535)%Z
  | None => false
  end.


(** A port outside the range: the process exits with code 1. *)
Example port_out_of_range_exits :
  startup (fun _ => Some 70000%Z) no_env "3000" sample_listen
    ["--port"; "70000"]
  = Exits 1.
Proof. reflexivity. Qed.

Section Config.
Variable DEFAULT_BASE_URL : string.
Variable DEFAULT_MODEL : string.
Variable env : string -> option string.

(** X22: the outbound call carries an [Authorization] header exactly
    when no base URL is set in the environment and an API key is; its
    value is then [Bearer] followed by the key. With a base URL set the
    key is never sent. [Content-Type] is always sent. *)
Theorem authorization_header_iff (value : string) :
  let cfg := config DEFAULT_BASE_URL DEFAULT_MODEL env in
  (In ("Authorization", value) (headers cfg)
   <-> truthy_str (env "ANTHROPIC_PROXY_BASE_URL") = false
       /\ exists k, env "OPENROUTER_API_KEY" = Some k
                    /\ k <> EmptyString
                    /\ value = ("Bearer " ++ k)%string)
  /\ In ("Content-Type", "application/json") (headers cfg).
Proof.
  cbv zeta. split; [|now left]. unfold headers, config. simpl.
  destruct (truthy_str (env "ANTHROPIC_PROXY_BASE_URL")) eqn:B; simpl.
  - split; [intros [H|[]]; discriminate | intros [H _]; discriminate].
  - unfold or_str. destruct (env "OPENROUTER_API_KEY") as [k|] eqn:K; simpl.
    + destruct (String.eqb k EmptyString) eqn:E; simpl.
      * apply String.eqb_eq in E. subst k. split.
        -- intros [H|[]]. discriminate.
        -- intros (_ & k & [= <-] & Hne & _). now contradiction Hne.
      * assert (OE : or_empty (Some k) = k)
          by (unfold or_empty, or_str; simpl; now rewrite E).
        rewrite E, OE. simpl. apply String.eqb_neq in E. split.
        -- intros [H|[H|[]]]; [discriminate|]. injection H as <-.
           split; [reflexivity|]. now exists k.
        -- intros (_ & k' & [= <-] & _ & ->). right. now left.
    + split; [intros [H|[]]; discriminate|].
      intros (_ & k & Hk & _). discriminate.
Qed.

(** X23: the model named in the outbound request is the reasoning
    model when [thinking] is truthy and the completion model otherwise,
    each being its environment variable when that is set and not
    empty, else the default; so it is never empty when the default is
    not. *)
Theorem outbound_model_never_empty
        (EXCLUDED_TOOLS : list string) (JSON_stringify : json -> string)
        (payload : AnthropicRequest) :
  DEFAULT_MODEL <> EmptyString ->
  let name :=
    oq_model (Request.openaiPayload EXCLUDED_TOOLS
                (models (config DEFAULT_BASE_URL DEFAULT_MODEL env))
                JSON_stringify payload) in
  let variable :=
    if Request.is_truthy (ar_thinking payload)
    then env "REASONING_MODEL" else env "COMPLETION_MODEL" in
  name <> EmptyString
  /\ name = match variable with
            | Some v => if String.eqb v EmptyString then DEFAULT_MODEL else v
            | None => DEFAULT_MODEL
            end.
Proof.
  intros Hd. cbv zeta. unfold Request.openaiPayload, config. simpl.
  assert (G : forall o,
             or_empty (or_str o (Some DEFAULT_MODEL)) <> EmptyString
             /\ or_empty (or_str o (Some DEFAULT_MODEL))
                = match o with
                  | Some v => if String.eqb v EmptyString
                              then DEFAULT_MODEL else v
                  | None => DEFAULT_MODEL
                  end).
  { pose proof Hd as Hd'. apply String.eqb_neq in Hd'.
    intros [v|]; unfold or_empty, or_str; simpl.
    - destruct (String.eqb v EmptyString) eqn:E; simpl.
      + rewrite Hd'. simpl. auto.
      + rewrite ?E. simpl. apply String.eqb_neq in E. auto.
    - rewrite Hd'. simpl. auto. }
  destruct (Request.is_truthy (ar_thinking payload)); apply G.
Qed.

End Config.

Definition keyed_env (name : string) : option string :=
  if String.eqb name "OPENROUTER_API_KEY" then Some "sk-1"
  else if String.eqb name "REASONING_MODEL" then Some "deep"
  else None.

Lemma outbound_model_never_empty_witness :
  oq_model (Request.openaiPayload []
              (models (config "https://openrouter.ai/api" "base" keyed_env))
              HandlerFacts.no_stringify (HandlerFacts.hello_request "Hello"))
  <> EmptyString
  /\ oq_model (Request.openaiPayload []
                 (models (config "https://openrouter.ai/api" "base" keyed_env))
                 HandlerFacts.no_stringify (HandlerFacts.hello_request "Hello"))
     = "base".
Proof.
  apply (outbound_model_never_empty "https://openrouter.ai/api" "base"
           keyed_env [] HandlerFacts.no_stringify
           (HandlerFacts.hello_request "Hello")).
  discriminate.
Defined.

(** The key is sent to the default backend. *)
Example keyed_headers :
  headers (config "https://openrouter.ai/api" "base" keyed_env)
  = [("Content-Type", "application/json"); ("Authorization", "Bearer sk-1")].
Proof. reflexivity. Qed.

End StartupFacts.

(** ** SchemaSanitizer and content normalization, further *)

Module SanitizerMore.
Import Sanitizer SanitizerFacts JsonFacts.

(** X24: on a schema whose string/uri objects hold strings, numbers
    and booleans only (string schemas without nested schemas), one
    pass of the sanitizer is enough: a second pass changes nothing and
    the result holds no string/uri object where the traversal goes. *)
Theorem removeUriFormat_once_on_scalar_leaves (x : json) :
  scalar_leaves x = true ->
  removeUriFormat (removeUriFormat x) = removeUriFormat x
  /\ uri_free (removeUriFormat x) = true.
Proof.
  intros H. apply scalar_leaves_settled in H.
  assert (I : removeUriFormat (removeUriFormat x) = removeUriFormat x)
    by now apply (proj1 (removeUriFormat_idem_below x)).
  split; [exact I|].
  now apply (proj1 (fixed_uri_free_below (removeUriFormat x))).
Qed.

Lemma removeUriFormat_once_on_scalar_leaves_witness :
  scalar_leaves link_schema = true
  /\ removeUriFormat (removeUriFormat link_schema) = removeUriFormat link_schema
  /\ uri_free (removeUriFormat link_schema) = true.
Proof.
  split; [reflexivity|].
  apply (removeUriFormat_once_on_scalar_leaves link_schema). reflexivity.
Defined.

(** The kind of a JSON value. *)
Inductive kind := k_null | k_bool | k_number | k_string | k_array | k_object.

Definition kind_of (v : json) : kind :=
  match v with
  | JNull => k_null
  | JBool _ => k_bool
  | JNum _ => k_number
  | JStr _ => k_string
  | JArr _ => k_array
  | JObj _ => k_object
  end.

(** X25: the sanitizer never changes the kind of the value it is
    given; null, booleans, numbers and strings come back unchanged, an
    array comes back with the same number of elements, and an object
    comes back with its keys in order, less [format] when it is a
    string/uri object. *)
Theorem removeUriFormat_keeps_shape (x : json) :
  kind_of (removeUriFormat x) = kind_of x
  /\ (typeof_object x = false -> removeUriFormat x = x)
  /\ removeUriFormat JNull = JNull
  /\ (forall xs, x = JArr xs ->
        exists ys, removeUriFormat x = JArr ys
                   /\ List.length ys = List.length xs)
  /\ (forall kvs, x = JObj kvs ->
        exists kvs', removeUriFormat x = JObj kvs'
                     /\ map fst kvs'
                        = if is_uri_string kvs
                          then filter (fun k => negb (String.eqb k "format"))
                                      (map fst kvs)
                          else map fst kvs).
Proof.
  split; [|split; [|split; [reflexivity|split]]].
  - destruct x; try reflexivity.
    rewrite removeUriFormat_obj. now destruct (is_uri_string kvs).
  - destruct x; try reflexivity; discriminate.
  - intros xs ->. rewrite removeUriFormat_arr. eexists. split; [reflexivity|].
    apply length_map.
  - intros kvs ->. rewrite removeUriFormat_obj.
    destruct (is_uri_string kvs); eexists; (split; [reflexivity|]).
    + unfold remove_key. induction kvs as [|[k v] rest IH]; simpl;
        [reflexivity|].
      destruct (String.eqb k "format"); simpl; now rewrite IH.
    + now rewrite map_map.
Qed.

End SanitizerMore.

Module NormalizeFacts.
Import Request JsStringFacts.

(** [item.text || item.content || '']. *)
Definition item_text (item : AnthropicContent) : string :=
  or_empty (or_str (ac_text item) (ac_content item)).

Lemma join_nonempty (sep : string) (xs : list string) :
  Forall (fun x => x <> EmptyString) xs ->
  join sep xs = EmptyString -> xs = [].
Proof.
  intros H E. destruct H as [|x rest Hx Hrest]; [reflexivity|].
  exfalso. destruct rest as [|y rest']; simpl in E; [now apply Hx|].
  destruct x; [now apply Hx | discriminate].
Qed.

Lemma filter_nonempty_nil (texts : list string) :
  filter (fun t => negb (String.eqb t EmptyString)) texts = []
  <-> Forall (fun t => t = EmptyString) texts.
Proof.
  induction texts as [|t rest IH]; simpl; [split; constructor|].
  destruct (String.eqb t EmptyString) eqn:E; simpl.
  - apply String.eqb_eq in E. rewrite IH. split.
    + now constructor.
    + intros H. now inversion H.
  - apply String.eqb_neq in E. split; [discriminate|].
    intros H. inversion H. contradiction.
Qed.

(** X26: a string is normalized to itself, the empty string included;
    an array is normalized to null exactly when none of its items has
    a text or else a content, and otherwise to the non-empty texts of
    its items joined by single spaces, which is never empty. *)
Theorem normalizeContent_cases
        (text : string) (items : list AnthropicContent) :
  normalizeContent (content_string text) = Some text
  /\ (normalizeContent (content_array items) = None
      <-> Forall (fun item => item_text item = EmptyString) items)
  /\ (forall joined,
         normalizeContent (content_array items) = Some joined ->
         joined <> EmptyString
         /\ joined
            = join " " (filter (fun t => negb (String.eqb t EmptyString))
                               (map item_text items))).
Proof.
  split; [reflexivity|]. unfold normalizeContent. fold item_text.
  set (kept := filter (fun t => negb (String.eqb t EmptyString))
                      (map item_text items)).
  assert (K : Forall (fun x => x <> EmptyString) kept).
  { apply Forall_forall. intros x Hx. apply filter_In in Hx as [_ Hx].
    intros ->. discriminate. }
  destruct (String.eqb (join " " kept) EmptyString) eqn:E.
  - apply String.eqb_eq in E. apply (join_nonempty " " kept K) in E.
    split; [|discriminate]. split; [|reflexivity]. intros _.
    apply filter_nonempty_nil in E.
    exact (proj1 (Forall_map item_text (fun t => t = EmptyString) items) E).
  - apply String.eqb_neq in E. split.
    + split; [discriminate|]. intros H. exfalso. apply E.
      apply (proj2 (Forall_map item_text (fun t => t = EmptyString) items))
        in H.
      apply filter_nonempty_nil in H.
      fold kept in H. now rewrite H.
    + intros joined [= <-]. now split.
Qed.

End NormalizeFacts.
